(** * BlogGenerator: the content-acquisition pipeline and its view state

    A shallow embedding of [BlogGenerator.js]: the two facade functions
    [generateBlogContent] and [generateImage], the mount effect
    [fetchPostsAndImages], the handler [handleReadMore], and the rendering
    cascade of the component.

    JavaScript values are the JSON-shaped values the program handles.
    Exceptions are explicit results, and the component's state, the
    requests sent to the backend, the console and the viewport are threaded
    through a small state-and-exception monad in which a [Throw] keeps the
    state reached so far, as a JavaScript [try]/[catch] does. *)

From Stdlib Require Import String Ascii List Bool ZArith Lia.
From Stdlib Require Import DecimalString.
Import ListNotations.
Open Scope string_scope.

(** ** JavaScript values *)

#[local] Set Warnings "-register-all".

(** [num] stands for the IEEE doubles of the host; the program never computes
    with numbers, it only tests them for truthiness and prints them. *)
Inductive JsVal (num : Type) : Type :=
| JUndefined
| JNull
| JBool (b : bool)
| JNum (n : num)
| JStr (s : string)
| JArr (items : list (JsVal num))
| JObj (props : list (string * JsVal num)).

Arguments JUndefined {num}.
Arguments JNull {num}.
Arguments JBool {num} b.
Arguments JNum {num} n.
Arguments JStr {num} s.
Arguments JArr {num} items.
Arguments JObj {num} props.

(** What the host environment provides and the repository does not define:
    the number type with its truthiness and printing, [JSON.parse] ([None]
    is a [SyntaxError]), and the UTF-16 code units of a string, each as a
    string of its own, which is what indexing and spreading a string see.
    A [string] stands for a JavaScript string in whatever encoding the host
    keeps it; only [code_units] depends on that encoding. *)
Class Host : Type := {
  num : Type;
  num_truthy : num -> bool;
  num_to_string : num -> string;
  JSON_parse : string -> option (JsVal num);
  code_units : string -> list string;
  code_units_empty : code_units EmptyString = nil
}.

(** The errors the program can meet.  Their payload is only ever logged.
    [RenderError] is what React throws while it renders an element. *)
Inductive Exn : Type :=
| TypeError
| SyntaxError
| Rejected (reason : string)
| RenderError (message : string).

Inductive Result (A : Type) : Type :=
| Ok (a : A)
| Throw (e : Exn).

Arguments Ok {A} a.
Arguments Throw {A} e.

Definition rbind {A B} (r : Result A) (k : A -> Result B) : Result B :=
  match r with
  | Ok a => k a
  | Throw e => Throw e
  end.

Definition is_ok {A} (r : Result A) : bool :=
  match r with Ok _ => true | Throw _ => false end.

(** Decimal name of an array index, as in the property key of element [i]. *)
Definition index_key (i : nat) : string :=
  NilZero.string_of_uint (Nat.to_uint i).

Fixpoint indexed_from {A} (i : nat) (l : list A) : list (string * A) :=
  match l with
  | [] => []
  | x :: r => (index_key i, x) :: indexed_from (S i) r
  end.

(** The characters of a text, each as a string: the code units of a text
    that is ASCII. *)
Fixpoint chars (s : string) : list string :=
  match s with
  | EmptyString => []
  | String c r => String c EmptyString :: chars r
  end.

Fixpoint lookup {A} (k : string) (kvs : list (string * A)) : option A :=
  match kvs with
  | [] => None
  | (k', v) :: r => if String.eqb k k' then Some v else lookup k r
  end.

(** Assignment of a property: an existing key keeps its place, a new key
    goes last. *)
Fixpoint set_prop {A} (k : string) (v : A) (kvs : list (string * A))
  : list (string * A) :=
  match kvs with
  | [] => [(k, v)]
  | (k', v') :: r =>
      if String.eqb k k' then (k, v) :: r else (k', v') :: set_prop k v r
  end.

Section Values.
Context {host : Host}.

Definition val : Type := JsVal num.

Definition nullish (v : val) : bool :=
  match v with
  | JUndefined | JNull => true
  | _ => false
  end.

(** ToBoolean. *)
Definition truthy (v : val) : bool :=
  match v with
  | JUndefined | JNull => false
  | JBool b => b
  | JNum n => num_truthy n
  | JStr EmptyString => false
  | JStr (String _ _) => true
  | JArr _ | JObj _ => true
  end.

(** The own enumerable properties of a value, as object spread and
    indexing see them: the properties of an object, the elements of an
    array and the code units of a string under their index, nothing
    for the other primitives. *)
Definition own_props (v : val) : list (string * val) :=
  match v with
  | JObj kvs => kvs
  | JArr xs => indexed_from 0 xs
  | JStr s => indexed_from 0 (map JStr (code_units s))
  | _ => []
  end.

(** Property read [v.k] / [v[k]].  On [undefined] and [null] it throws a
    [TypeError]; elsewhere a missing property reads [undefined].  The
    program reads only the names [candidates], [0], [content], [parts],
    [inlineData], [mimeType], [data], [text], [imagePrompt], [id],
    [title], [date], [summary] and [imageUrl], none of which
    is inherited from a built-in prototype, so the read is a lookup among
    the own properties. *)
Definition get_prop (v : val) (k : string) : Result val :=
  if nullish v then Throw TypeError
  else Ok (match lookup k (own_props v) with
           | Some x => x
           | None => JUndefined
           end).

(** ToString, as a template literal applies it.  An array prints its
    elements separated by commas, [null] and [undefined] elements as the
    empty text.  An object prints as [[object Object]] unless it has an
    own [toString] property: a JSON value there is not callable, and
    neither [Object.prototype.valueOf] nor an own [valueOf] yields a
    primitive, so the conversion throws a [TypeError]. *)
Fixpoint to_string (v : val) : Result string :=
  match v with
  | JUndefined => Ok "undefined"
  | JNull => Ok "null"
  | JBool true => Ok "true"
  | JBool false => Ok "false"
  | JNum n => Ok (num_to_string n)
  | JStr s => Ok s
  | JArr xs =>
      (fix join (l : list val) : Result string :=
         match l with
         | [] => Ok EmptyString
         | x :: r =>
             rbind (if nullish x then Ok EmptyString else to_string x)
               (fun sx =>
                  match r with
                  | [] => Ok sx
                  | _ :: _ => rbind (join r) (fun sr => Ok (sx ++ "," ++ sr))
                  end)
         end) xs
  | JObj kvs =>
      match lookup "toString" kvs with
      | Some _ => Throw TypeError
      | None => Ok "[object Object]"
      end
  end.

(** [{ ...post, imageUrl }] *)
Definition spread_with (post : val) (k : string) (v : val) : val :=
  JObj (set_prop k v (own_props post)).

End Values.

(** ** The world the component runs in *)

(** A request to [ai.models.generateContent]: the model, the text of the
    single user part, and the [config] object. *)
Record Request {host : Host} : Type := {
  req_model : string;
  req_text : string;
  req_config : val
}.

(** How an awaited [generateContent] call settles. *)
Inductive Outcome {host : Host} : Type :=
| Threw (reason : string)
| Returned (response : val).

(** An array together with its identity: the reference a state cell holds.
    Identities are kept for the arrays the [posts] cell can hold, the
    initial [[]] and the array [Promise.all] resolves to; none of them is
    mutated after its creation. *)
Record Arr {host : Host} : Type := {
  arr_ref : nat;
  arr_items : list val
}.

(** The four [useState] cells of [BlogGenerator]. *)
Record ViewState {host : Host} : Type := {
  posts : Arr;
  selectedPost : val;
  isLoading : bool;
  error : val
}.

(** The component's state and what it does to the outside: [api k r] is how
    the call issued as the [k]-th one, with request [r], settles; [calls]
    are the requests issued so far, [console] the labels given to
    [console.error], [scrolls] the number of [window.scrollTo(0, 0)], and
    [next_ref] the next unused array identity. *)
Record Sys {host : Host} : Type := {
  api : nat -> Request -> Outcome;
  calls : list Request;
  console : list string;
  scrolls : nat;
  next_ref : nat;
  view : ViewState
}.

Section Monad.
Context {host : Host}.

Definition M (A : Type) : Type := Sys -> Result A * Sys.

Definition ret {A} (a : A) : M A := fun s => (Ok a, s).

Definition throw {A} (e : Exn) : M A := fun s => (Throw e, s).

Definition bind {A B} (m : M A) (k : A -> M B) : M B :=
  fun s =>
    match m s with
    | (Ok a, s') => k a s'
    | (Throw e, s') => (Throw e, s')
    end.

Definition lift {A} (r : Result A) : M A := fun s => (r, s).

(** [try { m } catch (e) { h e }] *)
Definition try_catch {A} (m : M A) (h : Exn -> M A) : M A :=
  fun s =>
    match m s with
    | (Ok a, s') => (Ok a, s')
    | (Throw e, s') => h e s'
    end.

(** [try { m } finally { f }] where [f] returns nothing. *)
Definition try_finally {A} (m : M A) (f : M unit) : M A :=
  fun s =>
    match m s with
    | (r, s') =>
        match f s' with
        | (Ok _, s'') => (r, s'')
        | (Throw e, s'') => (Throw e, s'')
        end
    end.

Definition with_view (f : ViewState -> ViewState) (s : Sys) : Sys :=
  {| api := api s; calls := calls s; console := console s;
     scrolls := scrolls s; next_ref := next_ref s; view := f (view s) |}.

Definition setPosts (a : Arr) : M unit :=
  fun s => (Ok tt, with_view (fun v =>
    {| posts := a; selectedPost := selectedPost v;
       isLoading := isLoading v; error := error v |}) s).

Definition setSelectedPost (p : val) : M unit :=
  fun s => (Ok tt, with_view (fun v =>
    {| posts := posts v; selectedPost := p;
       isLoading := isLoading v; error := error v |}) s).

Definition setIsLoading (b : bool) : M unit :=
  fun s => (Ok tt, with_view (fun v =>
    {| posts := posts v; selectedPost := selectedPost v;
       isLoading := b; error := error v |}) s).

Definition setError (e : val) : M unit :=
  fun s => (Ok tt, with_view (fun v =>
    {| posts := posts v; selectedPost := selectedPost v;
       isLoading := isLoading v; error := e |}) s).

Definition console_error (label : string) : M unit :=
  fun s => (Ok tt,
    {| api := api s; calls := calls s; console := console s ++ [label];
       scrolls := scrolls s; next_ref := next_ref s; view := view s |}).

(** [window.scrollTo(0, 0)] *)
Definition scrollTo_top : M unit :=
  fun s => (Ok tt,
    {| api := api s; calls := calls s; console := console s;
       scrolls := S (scrolls s); next_ref := next_ref s; view := view s |}).

(** A fresh array holding [items]. *)
Definition new_array (items : list val) : M Arr :=
  fun s => (Ok {| arr_ref := next_ref s; arr_items := items |},
    {| api := api s; calls := calls s; console := console s;
       scrolls := scrolls s; next_ref := S (next_ref s); view := view s |}).

(** [await ai.models.generateContent(req)]: the request is recorded and the
    call settles as the backend decides. *)
Definition generateContent (req : Request) : M val :=
  fun s =>
    let s' := {| api := api s; calls := calls s ++ [req];
                 console := console s; scrolls := scrolls s;
                 next_ref := next_ref s; view := view s |} in
    match api s (length (calls s)) req with
    | Threw reason => (Throw (Rejected reason), s')
    | Returned response => (Ok response, s')
    end.

End Monad.

Declare Scope js_scope.
Delimit Scope js_scope with js.
Notation "x <- m ;; k" := (bind m (fun x => k))
  (at level 61, m at next level, right associativity) : js_scope.
Notation "m ;;; k" := (bind m (fun _ => k))
  (at level 61, right associativity) : js_scope.

(** ** The program *)

Section Program.
Context {host : Host}.
Open Scope js_scope.

Definition systemInstruction : string :=
  "You are an expert AI blog writer for 'AI Tools & Software.' Your task is to generate 5 complete, distinct, and high-quality blog posts. You MUST return the entire result as a single JSON array that strictly adheres to the provided schema. The content should be informative, use strong Markdown formatting (headings, bold, lists), and cover trending topics.".

Definition prompt : string :=
  "Generate 5 dynamic blog posts about current and future trends in AI and software development. Focus on new LLMs, MLOps practices, and AI-powered coding tools. Make each post engaging.".

Definition string_field (description : string) : val :=
  JObj [("type", JStr "string"); ("description", JStr description)].

Definition responseSchema : val :=
  JObj [("type", JStr "array");
        ("items", JObj [
           ("type", JStr "object");
           ("properties", JObj [
              ("id", string_field "A unique, URL-friendly identifier.");
              ("title", string_field "A compelling blog post title.");
              ("summary", string_field "A short, engaging summary.");
              ("content", string_field "The FULL blog post content, formatted with Markdown.");
              ("date", string_field "The current date in YYYY-MM-DD format.");
              ("imagePrompt", string_field "A short, detailed description for image generation.")]);
           ("required", JArr [JStr "id"; JStr "title"; JStr "summary";
                              JStr "content"; JStr "date"; JStr "imagePrompt"])])].

Definition content_request : Request :=
  {| req_model := "gemini-2.5-flash";
     req_text := prompt;
     req_config := JObj [("systemInstruction", JStr systemInstruction);
                         ("responseMimeType", JStr "application/json");
                         ("responseSchema", responseSchema)] |}.

(** [JSON.parse(x)]: the argument is converted to text, then parsed. *)
Definition json_parse (x : val) : Result val :=
  rbind (to_string x) (fun text =>
    match JSON_parse text with
    | Some v => Ok v
    | None => Throw SyntaxError
    end).

(** The body of the [try] block of [generateBlogContent]. *)
Definition content_try : M val :=
  response <- generateContent content_request ;;
  text <- lift (get_prop response "text") ;;
  lift (json_parse text).

Definition generateBlogContent : M val :=
  try_catch content_try
    (fun _ => console_error "Gemini API Content Error:" ;;; ret (JArr [])).

Definition genericFallbackUrl : string :=
  "data:image/png;base64,iVBORw0KGgoAAAANSUhEUgAAAAEAAAABCAYAAAAfFcSJAAAADUlEQVR42mNk+M9QDwADagGA38qL+QAAAABJRU5ErkJggg==".

Definition image_request (topic : string) : Request :=
  {| req_model := "gemini-2.5-flash-image";
     req_text := "Generate a photorealistic, abstract, 16:9 aspect ratio image for a tech blog related to: " ++ topic;
     req_config := JObj [] |}.

(** [parts.find(p => p.inlineData)] on the elements of an array: the first
    element whose [inlineData] is truthy, [undefined] when there is none;
    reading [inlineData] of a [null] or [undefined] element throws. *)
Fixpoint find_inlineData (parts : list val) : Result val :=
  match parts with
  | [] => Ok JUndefined
  | p :: rest =>
      rbind (get_prop p "inlineData") (fun d =>
        if truthy d then Ok p else find_inlineData rest)
  end.

(** A call of the method [find]: only arrays have one. *)
Definition call_find (parts : val) : Result val :=
  match parts with
  | JArr ps => find_inlineData ps
  | _ => Throw TypeError
  end.

(** [response.candidates[0].content.parts.find(p => p.inlineData)] *)
Definition find_image_part (response : val) : Result val :=
  rbind (get_prop response "candidates") (fun candidates =>
  rbind (get_prop candidates "0") (fun first =>
  rbind (get_prop first "content") (fun content =>
  rbind (get_prop content "parts") (fun parts =>
  call_find parts)))).

(** [imagePart && imagePart.inlineData] *)
Definition part_and_inlineData (imagePart : val) : Result val :=
  if truthy imagePart then get_prop imagePart "inlineData" else Ok imagePart.

(** The [if] branch of [generateImage] that builds the data URL. *)
Definition data_url (imagePart : val) : Result string :=
  rbind (get_prop imagePart "inlineData") (fun inlineData =>
  rbind (get_prop inlineData "mimeType") (fun m =>
  let mimeType := if truthy m then m else JStr "image/jpeg" in
  rbind (get_prop imagePart "inlineData") (fun inlineData' =>
  rbind (get_prop inlineData' "data") (fun base64Data =>
  rbind (to_string mimeType) (fun mime_text =>
  rbind (to_string base64Data) (fun data_text =>
  Ok ("data:" ++ mime_text ++ ";base64," ++ data_text))))))).

(** What the [try] block of [generateImage] does with the response, from
    the search for the image part to its [return]s. *)
Definition image_of_response (response : val) : Result string :=
  rbind (find_image_part response) (fun imagePart =>
  rbind (part_and_inlineData imagePart) (fun test =>
  if truthy test then data_url imagePart
  else Ok genericFallbackUrl)).

(** The body of the [try] block of [generateImage]: the template literal
    of the request, the awaited call, and the inspection of the response. *)
Definition image_try (imagePrompt : val) : M string :=
  topic <- lift (to_string imagePrompt) ;;
  response <- generateContent (image_request topic) ;;
  lift (image_of_response response).

Definition generateImage (imagePrompt : val) : M string :=
  try_catch (image_try imagePrompt)
    (fun _ => console_error "Gemini Native Image Generation Error:" ;;;
              ret genericFallbackUrl).

(** The callback given to [generatedPosts.map]. *)
Definition with_image (post : val) : M val :=
  imagePrompt <- lift (get_prop post "imagePrompt") ;;
  imageUrl <- generateImage imagePrompt ;;
  ret (spread_with post "imageUrl" (JStr imageUrl)).

(** [xs.map(f)] for an [async] callback [f]: every call is made, in order,
    and a throw inside one becomes that element's rejected promise.  The
    requests leave in the order of the elements, as the synchronous part of
    each callback sends them; running each callback to its end before the
    next one gives the same requests and the same results as the concurrent
    run, only the order of the console lines can differ. *)
Fixpoint map_async (f : val -> M val) (xs : list val)
  : M (list (Result val)) :=
  match xs with
  | [] => ret []
  | x :: rest =>
      fun s =>
        match f x s with
        | (r, s') =>
            match map_async f rest s' with
            | (Ok rs, s'') => (Ok (r :: rs), s'')
            | (Throw e, s'') => (Throw e, s'')
            end
        end
  end.

(** What [Promise.all] settles to: all the values, or a rejection. *)
Fixpoint all_settled (rs : list (Result val)) : Result (list val) :=
  match rs with
  | [] => Ok []
  | Throw e :: _ => Throw e
  | Ok v :: rest => rbind (all_settled rest) (fun vs => Ok (v :: vs))
  end.

(** [await Promise.all(generatedPosts.map(f))]: only an array has a [map]
    method; the result is a new array. *)
Definition promise_all_map (generatedPosts : val) (f : val -> M val) : M Arr :=
  match generatedPosts with
  | JArr drafts =>
      promises <- map_async f drafts ;;
      values <- lift (all_settled promises) ;;
      new_array values
  | _ => throw TypeError
  end.

Definition failure_message : string :=
  "Failed to fetch content or images. Ensure your API key is correct and check the network.".

(** The body of the [try] block of [fetchPostsAndImages]. *)
Definition fetch_try : M unit :=
  generatedPosts <- generateBlogContent ;;
  postsWithImages <- promise_all_map generatedPosts with_image ;;
  setPosts postsWithImages.

Definition fetchPostsAndImages : M unit :=
  setIsLoading true ;;;
  setError JNull ;;;
  try_finally
    (try_catch fetch_try (fun _ => setError (JStr failure_message)))
    (setIsLoading false).

Definition handleReadMore (post : val) : M unit :=
  setSelectedPost post ;;;
  scrollTo_top.

(** The [onClick] of the back button. *)
Definition handleBack : M unit :=
  setSelectedPost JNull.

(** *** Rendering *)

(** One card of the grid: its React [key], the image when [post.imageUrl]
    is truthy, the texts, and the post its button hands to
    [handleReadMore]. *)
Record Card : Type := {
  card_key : val;
  card_image : option val;
  card_title : val;
  card_date : val;
  card_summary : val;
  card_post : val
}.

Inductive View : Type :=
| LoadingView
| ErrorBanner (message : val)
| DetailView (title date : val) (image : option val) (content : val)
| ListView (cards : list Card).

(** What React accepts as a child of an element: strings, numbers,
    booleans, [null] and [undefined], and arrays of such; a plain object is
    refused. *)
Fixpoint valid_child (v : val) : bool :=
  match v with
  | JObj _ => false
  | JArr xs =>
      (fix all (l : list val) : bool :=
         match l with
         | [] => true
         | x :: r => valid_child x && all r
         end) xs
  | _ => true
  end.

(** [{v}] among the children of an element: React throws on a value it
    does not accept. *)
Definition child (v : val) : Result val :=
  if valid_child v then Ok v
  else Throw (RenderError "Objects are not valid as a React child").

(** [key={v}]: unless it is [undefined], React turns the key into a string
    when the element is created, which throws when the value has no string
    conversion. *)
Definition element_key (v : val) : Result val :=
  match v with
  | JUndefined => Ok v
  | _ => rbind (to_string v) (fun _ => Ok v)
  end.

(** [src={v}], [alt={v}]: the attribute is set from the string conversion
    of the value, which throws when there is none. *)
Definition attribute (v : val) : Result val :=
  rbind (to_string v) (fun _ => Ok v).

(** [x.imageUrl && <img src={x.imageUrl} alt={x.title} .../>] *)
Definition render_image (x : val) : Result (option val) :=
  rbind (get_prop x "imageUrl") (fun test =>
    if truthy test
    then rbind (get_prop x "imageUrl") (fun src =>
         rbind (attribute src) (fun src =>
         rbind (get_prop x "title") (fun alt =>
         rbind (attribute alt) (fun _ => Ok (Some src)))))
    else Ok None).

Definition render_card (post : val) : Result Card :=
  rbind (get_prop post "id") (fun id =>
  rbind (element_key id) (fun key =>
  rbind (render_image post) (fun image =>
  rbind (get_prop post "title") (fun title =>
  rbind (child title) (fun title =>
  rbind (get_prop post "date") (fun date =>
  rbind (child date) (fun date =>
  rbind (get_prop post "summary") (fun summary =>
  rbind (child summary) (fun summary =>
  Ok {| card_key := key; card_image := image; card_title := title;
        card_date := date; card_summary := summary;
        card_post := post |}))))))))).

(** [posts.map(post => <div key={post.id}> ... </div>)] *)
Fixpoint render_cards (ps : list val) : Result (list Card) :=
  match ps with
  | [] => Ok []
  | p :: rest =>
      rbind (render_card p) (fun c =>
      rbind (render_cards rest) (fun cs => Ok (c :: cs)))
  end.

(** The article of the selected post.  [content] is handed to
    [ReactMarkdown], a library outside the repository: what it does with a
    content that is not a string is not modelled. *)
Definition render_detail (selected : val) : Result View :=
  rbind (get_prop selected "title") (fun title =>
  rbind (child title) (fun title =>
  rbind (get_prop selected "date") (fun date =>
  rbind (child date) (fun date =>
  rbind (render_image selected) (fun image =>
  rbind (get_prop selected "content") (fun content =>
  Ok (DetailView title date image content))))))).

(** The cascade of [if]s that ends the component function. *)
Definition render (v : ViewState) : Result View :=
  if isLoading v then Ok LoadingView
  else if truthy (error v) then Ok (ErrorBanner (error v))
  else if truthy (selectedPost v) then render_detail (selectedPost v)
  else rbind (render_cards (arr_items (posts v)))
         (fun cards => Ok (ListView cards)).

(** *** Events *)

Inductive Event : Type :=
| ReadMore (post : val)
| Back.

(** The buttons a rendered view offers. *)
Definition actions (w : View) : list Event :=
  match w with
  | LoadingView => []
  | ErrorBanner _ => []
  | DetailView _ _ _ _ => [Back]
  | ListView cards => map (fun c => ReadMore (card_post c)) cards
  end.

Definition handle (e : Event) : M unit :=
  match e with
  | ReadMore post => handleReadMore post
  | Back => handleBack
  end.

(** The component as first rendered, before its effect has run:
    [useState([])], [useState(null)], [useState(true)], [useState(null)]. *)
Definition mounted (backend : nat -> Request -> Outcome) : Sys :=
  {| api := backend; calls := []; console := []; scrolls := 0;
     next_ref := 1;
     view := {| posts := {| arr_ref := 0; arr_items := [] |};
                selectedPost := JNull;
                isLoading := true;
                error := JNull |} |}.

(** The state when the [try]/[catch] of the effect is over, the posts or the
    error set, and [finally] has not run yet.  Whether the component is
    rendered in this state depends on how the framework batches the two
    updates; it is taken as a state of its own. *)
Definition settled (backend : nat -> Request -> Outcome) : Sys :=
  snd (try_catch fetch_try (fun _ => setError (JStr failure_message))
         (mounted backend)).

(** The state once the effect has run to its end. *)
Definition loaded (backend : nat -> Request -> Outcome) : Sys :=
  snd (fetchPostsAndImages (mounted backend)).

(** What can happen to the component: its effect, which runs once, after
    the first render (dependency list [[]]), sets the posts or the error,
    then clears the loading flag; or the user presses a button that the
    current view shows. *)
Inductive step : Sys -> Sys -> Prop :=
| step_settle backend :
    step (mounted backend) (settled backend)
| step_finish backend :
    step (settled backend) (loaded backend)
| step_click s w e :
    render (view s) = Ok w ->
    In e (actions w) ->
    step s (snd (handle e s)).

Inductive reachable (backend : nat -> Request -> Outcome) : Sys -> Prop :=
| reach_mounted : reachable backend (mounted backend)
| reach_step s s' :
    reachable backend s -> step s s' -> reachable backend s'.

(** *** The view state as the specification describes it *)

Inductive Tagged : Type :=
| Loading
| Errored (message : val)
| Ready (collection : Arr) (selection : option val).

(** Reading the four cells in the order of the rendering cascade. *)
Definition tag_of (v : ViewState) : Tagged :=
  if isLoading v then Loading
  else if truthy (error v) then Errored (error v)
  else Ready (posts v)
         (if truthy (selectedPost v) then Some (selectedPost v) else None).

(** The cells that stand for a tagged state. *)
Definition cells_of (t : Tagged) : ViewState :=
  match t with
  | Loading =>
      {| posts := {| arr_ref := 0; arr_items := [] |};
         selectedPost := JNull; isLoading := true; error := JNull |}
  | Errored message =>
      {| posts := {| arr_ref := 0; arr_items := [] |};
         selectedPost := JNull; isLoading := false; error := message |}
  | Ready collection selection =>
      {| posts := collection;
         selectedPost := match selection with Some p => p | None => JNull end;
         isLoading := false; error := JNull |}
  end.

Inductive ViewKind : Type := KLoading | KError | KDetail | KList.

Definition kind_of (w : View) : ViewKind :=
  match w with
  | LoadingView => KLoading
  | ErrorBanner _ => KError
  | DetailView _ _ _ _ => KDetail
  | ListView _ => KList
  end.

Definition is_errored (v : ViewState) : bool :=
  negb (isLoading v) && truthy (error v).

Definition is_ready (v : ViewState) : bool :=
  negb (isLoading v) && negb (truthy (error v)).

End Program.

(** ** Vocabulary of the properties *)

Section Vocabulary.
Context {host : Host}.

(** The response carries an inline image part: the path
    [candidates[0].content.parts] leads to an array, one of whose elements
    has a truthy [inlineData]. *)
Definition has_inline_part (response : val) : Prop :=
  exists candidates first content parts part inlineData,
    get_prop response "candidates" = Ok candidates /\
    get_prop candidates "0" = Ok first /\
    get_prop first "content" = Ok content /\
    get_prop content "parts" = Ok (JArr parts) /\
    In part parts /\
    get_prop part "inlineData" = Ok inlineData /\
    truthy inlineData = true.

(** [part] is the first inline image part of the response: the parts before
    it are values without a truthy [inlineData]. *)
Definition first_inline_part (response part : val) : Prop :=
  exists candidates first content before after inlineData,
    get_prop response "candidates" = Ok candidates /\
    get_prop candidates "0" = Ok first /\
    get_prop first "content" = Ok content /\
    get_prop content "parts" = Ok (JArr (before ++ part :: after)) /\
    Forall (fun q => exists d,
              get_prop q "inlineData" = Ok d /\ truthy d = false) before /\
    get_prop part "inlineData" = Ok inlineData /\
    truthy inlineData = true.

(** The structure [responseSchema] asks for: an array of objects in which
    the six required properties are strings. *)
Definition is_draft (v : val) : bool :=
  match v with
  | JObj props =>
      forallb (fun k => match lookup k props with
                        | Some (JStr _) => true
                        | _ => false
                        end)
        ["id"; "title"; "summary"; "content"; "date"; "imagePrompt"]
  | _ => false
  end.

Definition matches_schema (v : val) : bool :=
  match v with
  | JArr drafts => forallb is_draft drafts
  | _ => false
  end.

Definition is_object (v : val) : Prop :=
  exists props, v = JObj props.

(** [s'] differs from [s] at most in the requests sent and the console. *)
Definition quiet (s s' : Sys) : Prop :=
  view s' = view s /\ api s' = api s /\
  next_ref s' = next_ref s /\ scrolls s' = scrolls s.

(** The value [generateImage] returns when its call settles as [o]. *)
Definition settled_url (o : Outcome) : string :=
  match o with
  | Threw _ => genericFallbackUrl
  | Returned response =>
      match image_of_response response with
      | Ok url => url
      | Throw _ => genericFallbackUrl
      end
  end.

(** What the text facade returns when its call settles as [o]. *)
Definition settled_drafts (o : Outcome) : val :=
  match o with
  | Threw _ => JArr []
  | Returned response =>
      match rbind (get_prop response "text") json_parse with
      | Ok parsed => parsed
      | Throw _ => JArr []
      end
  end.

(** A post built by the pipeline from [draft]. *)
Definition post_of (draft post : val) : Prop :=
  nullish draft = false /\
  exists url, url <> EmptyString /\
              post = spread_with draft "imageUrl" (JStr url).

(** What holds of the four cells in every state the component can reach:
    once loading is over they are the cells of a tagged state, the posts
    are objects, and the selection is [null] or one of the posts. *)
Definition well_formed (v : ViewState) : Prop :=
  (isLoading v = false -> cells_of (tag_of v) = v) /\
  Forall is_object (arr_items (posts v)) /\
  (selectedPost v = JNull \/ In (selectedPost v) (arr_items (posts v))).

(** [handleReadMore post] turns the argument away in state [s]: it throws,
    or it leaves the selection as it was. *)
Definition rejects (post : val) (s : Sys) : Prop :=
  (exists e, fst (handleReadMore post s) = Throw e) \/
  selectedPost (view (snd (handleReadMore post s))) = selectedPost (view s).

(** The rendered view [w] is the one that belongs to the tagged state. *)
Definition shows (t : Tagged) (w : View) : Prop :=
  match t, w with
  | Loading, LoadingView => True
  | Errored message, ErrorBanner shown => shown = message
  | Ready _ (Some p), DetailView title date _ content =>
      get_prop p "title" = Ok title /\ get_prop p "date" = Ok date /\
      get_prop p "content" = Ok content
  | Ready collection None, ListView cards =>
      map card_post cards = arr_items collection
  | _, _ => False
  end.

(** The effect has completed: the view is not loading any more, and the
    posts, the error and the requests sent are those the effect left. *)
Definition after_load (backend : nat -> Request -> Outcome) (s : Sys) : Prop :=
  isLoading (view s) = false /\
  posts (view s) = posts (view (loaded backend)) /\
  error (view s) = error (view (loaded backend)) /\
  calls s = calls (loaded backend) /\
  next_ref s = next_ref (loaded backend).

End Vocabulary.

(** ** Vocabulary of the rendering *)

Section Display.
Context {host : Host}.

(** The value has a string conversion. *)
Definition printable (v : val) : bool := is_ok (to_string v).

(** A post the grid can show: its [id] is [undefined] or has a string
    conversion, its [title], [date] and [summary] are values React accepts
    as children, and, when its [imageUrl] is truthy, [imageUrl] and [title]
    have the string conversions the attributes of the image need. *)
Definition displayable (post : val) : Prop :=
  exists id title date summary imageUrl,
    get_prop post "id" = Ok id /\
    get_prop post "title" = Ok title /\
    get_prop post "date" = Ok date /\
    get_prop post "summary" = Ok summary /\
    get_prop post "imageUrl" = Ok imageUrl /\
    (id = JUndefined \/ printable id = true) /\
    valid_child title = true /\
    valid_child date = true /\
    valid_child summary = true /\
    (truthy imageUrl = true ->
     printable imageUrl = true /\ printable title = true).

End Display.

(** ** Vocabulary of the requests and the console *)

Section Traffic.
Context {host : Host}.

(** The request [generateImage] sends for a prompt: none when the prompt has
    no text form, since the template literal throws before the call. *)
Definition image_requests_of (imagePrompt : val) : list Request :=
  match to_string imagePrompt with
  | Ok topic => [image_request topic]
  | Throw _ => []
  end.

(** The request the callback of [map] sends for a draft: none for [null]
    and [undefined], whose [imagePrompt] cannot be read. *)
Definition draft_requests (draft : val) : list Request :=
  match get_prop draft "imagePrompt" with
  | Ok imagePrompt => image_requests_of imagePrompt
  | Throw _ => []
  end.

(** The string [generateImage] returns in state [s]. *)
Definition image_value (imagePrompt : val) (s : Sys) : string :=
  match to_string imagePrompt with
  | Ok topic => settled_url (api s (length (calls s)) (image_request topic))
  | Throw _ => genericFallbackUrl
  end.

(** The lines [generateImage] writes to the console in state [s]: one when
    its [catch] runs, none otherwise. *)
Definition image_log (imagePrompt : val) (s : Sys) : list string :=
  match to_string imagePrompt with
  | Throw _ => ["Gemini Native Image Generation Error:"]
  | Ok topic =>
      match api s (length (calls s)) (image_request topic) with
      | Threw _ => ["Gemini Native Image Generation Error:"]
      | Returned response =>
          match image_of_response response with
          | Ok _ => []
          | Throw _ => ["Gemini Native Image Generation Error:"]
          end
      end
  end.

(** The path [candidates[0].content.parts] of the response leads to [parts]. *)
Definition parts_of (response parts : val) : Prop :=
  exists candidates first content,
    get_prop response "candidates" = Ok candidates /\
    get_prop candidates "0" = Ok first /\
    get_prop first "content" = Ok content /\
    get_prop content "parts" = Ok parts.

(** A part that can be read and carries no truthy [inlineData]. *)
Definition plain_part (part : val) : Prop :=
  exists d, get_prop part "inlineData" = Ok d /\ truthy d = false.

(** What the promises of [generatedPosts.map] settle to when the backend is
    [backend] and the first request they send is the [k]-th one: the closed
    form of [map_async with_image], proved equal to it below. *)
Fixpoint settle_all (backend : nat -> Request -> Outcome) (k : nat)
    (drafts : list val) : list (Result val) :=
  match drafts with
  | [] => []
  | draft :: rest =>
      match get_prop draft "imagePrompt" with
      | Throw e => Throw e :: settle_all backend k rest
      | Ok imagePrompt =>
          match to_string imagePrompt with
          | Throw _ =>
              Ok (spread_with draft "imageUrl" (JStr genericFallbackUrl))
                :: settle_all backend k rest
          | Ok topic =>
              Ok (spread_with draft "imageUrl"
                    (JStr (settled_url (backend k (image_request topic)))))
                :: settle_all backend (S k) rest
          end
      end
  end.

End Traffic.

(** ** A concrete host

    Numbers are integers printed in decimal, [parse_fragment] agrees with
    [JSON.parse] on the four texts it accepts, and the code units of a text
    are its characters, as they are for the ASCII texts of the examples
    below, which run on this host. *)

Definition quote : string := String (ascii_of_nat 34) EmptyString.

(** The JSON text of a member whose value is a string without escapes. *)
Definition json_member (k v : string) : string :=
  quote ++ k ++ quote ++ ":" ++ quote ++ v ++ quote.

(** A draft that satisfies [responseSchema] and whose [id] is the empty
    string, and the JSON text of the array that holds it. *)
Definition empty_id_draft : JsVal Z :=
  JObj [("id", JStr EmptyString);
        ("title", JStr "Agents at work");
        ("summary", JStr "What coding agents change.");
        ("content", JStr "# Agents at work");
        ("date", JStr "2025-01-01");
        ("imagePrompt", JStr "robots writing code")].

Definition empty_id_text : string :=
  "[{" ++ json_member "id" EmptyString ++ ","
       ++ json_member "title" "Agents at work" ++ ","
       ++ json_member "summary" "What coding agents change." ++ ","
       ++ json_member "content" "# Agents at work" ++ ","
       ++ json_member "date" "2025-01-01" ++ ","
       ++ json_member "imagePrompt" "robots writing code" ++ "}]".

(** A draft whose [title] is an empty object, and the JSON text of the
    array that holds it. *)
Definition object_title_draft : JsVal Z :=
  JObj [("title", JObj [])].

Definition object_title_text : string :=
  "[{" ++ quote ++ "title" ++ quote ++ ":{}}]".

Definition parse_fragment (text : string) : option (JsVal Z) :=
  if String.eqb text "[]" then Some (JArr [])
  else if String.eqb text "{}" then Some (JObj [])
  else if String.eqb text empty_id_text then Some (JArr [empty_id_draft])
  else if String.eqb text object_title_text
       then Some (JArr [object_title_draft])
  else None.

Definition demo_host : Host :=
  {| num := Z;
     num_truthy := fun z => negb (Z.eqb z 0);
     num_to_string := fun z => NilZero.string_of_int (Z.to_int z);
     JSON_parse := parse_fragment;
     code_units := chars;
     code_units_empty := eq_refl |}.

(** The backend is unreachable: every call throws. *)
Definition backend_offline : nat -> @Request demo_host -> @Outcome demo_host :=
  fun _ _ => Threw "offline".

(** The text call answers with the JSON text of an empty object. *)
Definition backend_braces : nat -> @Request demo_host -> @Outcome demo_host :=
  fun _ _ => Returned (JObj [("text", JStr "{}")]).

(** A response whose second part is an inline image without [mimeType]. *)
Definition untyped_image_response : @val demo_host :=
  JObj [("candidates", JArr [
    JObj [("content", JObj [("parts", JArr [
      JObj [("text", JStr "Here is the picture.")];
      JObj [("inlineData", JObj [("data", JStr "QUJD")])]])])]])].

(** Every call answers with [untyped_image_response]. *)
Definition backend_untyped_image
  : nat -> @Request demo_host -> @Outcome demo_host :=
  fun _ _ => Returned untyped_image_response.

(** The text call answers with [empty_id_text], and every image call with
    [untyped_image_response]. *)
Definition backend_empty_id : nat -> @Request demo_host -> @Outcome demo_host :=
  fun k _ =>
    match k with
    | 0 => Returned (JObj [("text", JStr empty_id_text)])
    | _ => Returned untyped_image_response
    end.

(** The post the pipeline builds from [empty_id_draft] on that backend. *)
Definition empty_id_post : @val demo_host :=
  spread_with (host := demo_host) empty_id_draft "imageUrl"
    (JStr "data:image/jpeg;base64,QUJD").

(** A value that is no post of any collection. *)
Definition stranger : @val demo_host :=
  JObj [("id", JStr "ghost")].

(** A response with one candidate, whose content has the given parts. *)
Definition response_with_parts (parts : list (@val demo_host))
  : @val demo_host :=
  JObj [("candidates", JArr [JObj [("content", JObj [("parts", JArr parts)])]])].

(** Every call answers with a response that has the given parts. *)
Definition backend_parts (parts : list (@val demo_host))
  : nat -> @Request demo_host -> @Outcome demo_host :=
  fun _ _ => Returned (response_with_parts parts).

Definition text_part : @val demo_host :=
  JObj [("text", JStr "Here is the picture.")].

(** Inline parts: a PNG, one whose [mimeType] is the empty string, and one
    without [data]. *)
Definition png_part : @val demo_host :=
  JObj [("inlineData",
         JObj [("mimeType", JStr "image/png"); ("data", JStr "QUJD")])].

Definition blank_mime_part : @val demo_host :=
  JObj [("inlineData",
         JObj [("mimeType", JStr EmptyString); ("data", JStr "QUJD")])].

Definition no_data_part : @val demo_host :=
  JObj [("inlineData", JObj [("mimeType", JStr "image/png")])].

(** The text call answers with [empty_id_text], and every image call
    throws. *)
Definition backend_empty_id_offline
  : nat -> @Request demo_host -> @Outcome demo_host :=
  fun k _ =>
    match k with
    | 0 => Returned (JObj [("text", JStr empty_id_text)])
    | _ => Threw "offline"
    end.

(** The card the grid shows for [empty_id_post]. *)
Definition empty_id_card : @Card demo_host :=
  {| card_key := JStr EmptyString;
     card_image := Some (JStr "data:image/jpeg;base64,QUJD");
     card_title := JStr "Agents at work";
     card_date := JStr "2025-01-01";
     card_summary := JStr "What coding agents change.";
     card_post := empty_id_post |}.

(** The text call answers with [object_title_text], and every image call
    throws. *)
Definition backend_object_title
  : nat -> @Request demo_host -> @Outcome demo_host :=
  fun k _ =>
    match k with
    | 0 => Returned (JObj [("text", JStr object_title_text)])
    | _ => Threw "offline"
    end.

(** A draft that has an [id] and nothing else. *)
Definition bare_draft : @val demo_host :=
  JObj [("id", JStr "p1")].

(** ** Properties of values *)

Section ValueFacts.
Context {host : Host}.

Lemma lookup_set_prop_same {A} (k : string) (v : A) kvs :
  lookup k (set_prop k v kvs) = Some v.
Proof.
  induction kvs as [|[k' v'] rest IH]; simpl.
  - now rewrite String.eqb_refl.
  - destruct (String.eqb k k') eqn:E; simpl.
    + now rewrite String.eqb_refl.
    + now rewrite E.
Qed.

Lemma lookup_set_prop_other {A} (k k0 : string) (v : A) kvs :
  k <> k0 -> lookup k (set_prop k0 v kvs) = lookup k kvs.
Proof.
  intros Hne.
  induction kvs as [|[k' v'] rest IH]; simpl.
  - apply String.eqb_neq in Hne. now rewrite Hne.
  - destruct (String.eqb k0 k') eqn:E; simpl.
    + apply String.eqb_eq in E. subst k'.
      apply String.eqb_neq in Hne. now rewrite Hne.
    + now rewrite IH.
Qed.

Lemma get_prop_ok (v : val) k x :
  get_prop v k = Ok x -> nullish v = false.
Proof.
  unfold get_prop. destruct (nullish v); [discriminate | reflexivity].
Qed.

Lemma get_prop_throw (v : val) k e :
  get_prop v k = Throw e -> nullish v = true.
Proof.
  unfold get_prop. destruct (nullish v); [reflexivity | discriminate].
Qed.

Lemma truthy_not_nullish (v : val) : truthy v = true -> nullish v = false.
Proof. destruct v; simpl; congruence. Qed.

(** A value with a truthy property is itself truthy. *)
Lemma truthy_property (v : val) k d :
  get_prop v k = Ok d -> truthy d = true -> truthy v = true.
Proof.
  unfold get_prop.
  destruct v as [| |b|n|s|xs|kvs]; simpl; try discriminate;
    try (intros H; injection H as <-; simpl; discriminate);
    try reflexivity.
  destruct s; simpl; [|reflexivity].
  rewrite code_units_empty. simpl.
  intros H; injection H as <-; simpl; discriminate.
Qed.

(** Spreading a post and adding [imageUrl] keeps every other property. *)
Lemma spread_with_same (post : val) k v :
  get_prop (spread_with post k v) k = Ok v.
Proof.
  unfold spread_with, get_prop. simpl. now rewrite lookup_set_prop_same.
Qed.

Lemma spread_with_other (post : val) k0 v k :
  nullish post = false -> k <> k0 ->
  get_prop (spread_with post k0 v) k = get_prop post k.
Proof.
  intros Hn Hne. unfold spread_with, get_prop. rewrite Hn. simpl.
  now rewrite lookup_set_prop_other.
Qed.

Lemma genericFallbackUrl_nonempty : genericFallbackUrl <> EmptyString.
Proof. unfold genericFallbackUrl. discriminate. Qed.

End ValueFacts.

(** ** The image facade *)

Section ImageFacts.
Context {host : Host}.

Lemma quiet_refl s : quiet s s.
Proof. repeat split. Qed.

Lemma quiet_trans s1 s2 s3 : quiet s1 s2 -> quiet s2 s3 -> quiet s1 s3.
Proof.
  intros (A1 & A2 & A3 & A4) (B1 & B2 & B3 & B4).
  repeat split; congruence.
Qed.

Lemma generateContent_quiet req s : quiet s (snd (generateContent req s)).
Proof.
  unfold generateContent.
  destruct (api s (length (calls s)) req); repeat split.
Qed.

Lemma find_inlineData_found parts p :
  find_inlineData parts = Ok p ->
  p = JUndefined \/
  (In p parts /\ exists d, get_prop p "inlineData" = Ok d /\ truthy d = true).
Proof.
  induction parts as [|q rest IH]; simpl.
  - intros H. injection H as <-. now left.
  - destruct (get_prop q "inlineData") as [d|e] eqn:G; simpl; [|discriminate].
    destruct (truthy d) eqn:T.
    + intros H. injection H as <-. right. split; [now left | eauto].
    + intros H. destruct (IH H) as [-> | [Hin Hd]]; [now left | right].
      split; [now right | exact Hd].
Qed.

Lemma find_inlineData_first before part after d :
  Forall (fun q => exists d0,
            get_prop q "inlineData" = Ok d0 /\ truthy d0 = false) before ->
  get_prop part "inlineData" = Ok d -> truthy d = true ->
  find_inlineData (before ++ part :: after) = Ok part.
Proof.
  intros Hb Hg Ht.
  induction Hb as [|q before (d0 & G0 & T0) _ IH]; simpl.
  - now rewrite Hg; simpl; rewrite Ht.
  - now rewrite G0; simpl; rewrite T0.
Qed.

Lemma first_inline_part_found response part :
  first_inline_part response part -> find_image_part response = Ok part.
Proof.
  intros (c & f & ct & before & after & d & H1 & H2 & H3 & H4 & Hb & Hg & Ht).
  unfold find_image_part. rewrite H1; simpl. rewrite H2; simpl.
  rewrite H3; simpl. rewrite H4; simpl.
  now apply find_inlineData_first with (d := d).
Qed.

(** When the response is inspected without a throw, either the placeholder
    comes back or an inline part was found. *)
Lemma image_of_response_cases response url :
  image_of_response response = Ok url ->
  url = genericFallbackUrl \/
  (has_inline_part response /\ exists part, data_url part = Ok url).
Proof.
  unfold image_of_response, find_image_part.
  destruct (get_prop response "candidates") as [c|] eqn:H1; simpl; [|discriminate].
  destruct (get_prop c "0") as [f|] eqn:H2; simpl; [|discriminate].
  destruct (get_prop f "content") as [ct|] eqn:H3; simpl; [|discriminate].
  destruct (get_prop ct "parts") as [ps|] eqn:H4; simpl; [|discriminate].
  destruct ps as [| | | | |parts|]; simpl; try discriminate.
  destruct (find_inlineData parts) as [part|] eqn:F; simpl; [|discriminate].
  unfold part_and_inlineData.
  destruct (truthy part) eqn:Tp; simpl.
  - destruct (get_prop part "inlineData") as [d|] eqn:G; simpl; [|discriminate].
    destruct (truthy d) eqn:Td.
    + intros Hu. right. split; [|eauto].
      destruct (find_inlineData_found _ _ F) as [-> | [Hin _]];
        [discriminate|].
      exists c, f, ct, parts, part, d. tauto.
    + intros H. injection H as <-. now left.
  - rewrite Tp. intros H. injection H as <-. now left.
Qed.

Lemma data_url_nonempty part url :
  data_url part = Ok url -> url <> EmptyString.
Proof.
  unfold data_url.
  destruct (get_prop part "inlineData") as [d|]; simpl; [|discriminate].
  destruct (get_prop d "mimeType") as [m|]; simpl; [|discriminate].
  destruct (get_prop d "data") as [b|]; simpl; [|discriminate].
  destruct (to_string (if truthy m then m else JStr "image/jpeg"));
    simpl; [|discriminate].
  destruct (to_string b); simpl; [|discriminate].
  intros H. injection H as <-. discriminate.
Qed.

Lemma settled_url_nonempty o : settled_url o <> EmptyString.
Proof.
  destruct o as [r|response]; simpl.
  - apply genericFallbackUrl_nonempty.
  - destruct (image_of_response response) as [url|] eqn:E.
    + destruct (image_of_response_cases _ _ E) as [-> | [_ [part Hp]]].
      * apply genericFallbackUrl_nonempty.
      * eapply data_url_nonempty; eauto.
    + apply genericFallbackUrl_nonempty.
Qed.

(** [generateImage] always returns, and what it returns is decided by the
    text of the prompt and the way the call settles. *)
Lemma generateImage_run imagePrompt s :
  exists s',
    generateImage imagePrompt s =
      (Ok (match to_string imagePrompt with
           | Ok topic =>
               settled_url (api s (length (calls s)) (image_request topic))
           | Throw _ => genericFallbackUrl
           end), s') /\
    quiet s s'.
Proof.
  unfold generateImage, try_catch, image_try, bind, lift, generateContent,
    console_error, ret.
  destruct (to_string imagePrompt) as [topic|]; simpl.
  - destruct (api s (length (calls s)) (image_request topic)) as [r|response];
      simpl.
    + eexists; split; [reflexivity | repeat split].
    + destruct (image_of_response response); simpl;
        eexists; (split; [reflexivity | repeat split]).
  - eexists; split; [reflexivity | repeat split].
Qed.

End ImageFacts.

(** ** The pipeline *)

Section PipelineFacts.
Context {host : Host}.

(** The text facade always returns, and what it returns is decided by the
    way its call settles. *)
Lemma generateBlogContent_run s :
  exists s',
    generateBlogContent s =
      (Ok (settled_drafts (api s (length (calls s)) content_request)), s') /\
    quiet s s'.
Proof.
  unfold generateBlogContent, try_catch, content_try, bind, lift,
    generateContent, console_error, ret.
  destruct (api s (length (calls s)) content_request) as [r|response]; simpl.
  - eexists; split; [reflexivity | repeat split].
  - destruct (get_prop response "text") as [text|]; simpl.
    + destruct (json_parse text); simpl;
        eexists; (split; [reflexivity | repeat split]).
    + eexists; split; [reflexivity | repeat split].
Qed.

(** The callback of [map] fails exactly on [null] and [undefined]. *)
Lemma with_image_run post s :
  exists r s',
    with_image post s = (r, s') /\ quiet s s' /\
    match r with
    | Ok p => post_of post p
    | Throw _ => nullish post = true
    end.
Proof.
  unfold with_image, bind, lift.
  destruct (get_prop post "imagePrompt") as [ip|e] eqn:G.
  - destruct (generateImage_run ip s) as (s' & Hrun & Hq).
    rewrite Hrun. unfold ret.
    eexists; eexists; split; [reflexivity|]. split; [exact Hq|].
    split; [eapply get_prop_ok; eauto|].
    eexists; split; [|reflexivity].
    destruct (to_string ip).
    + apply settled_url_nonempty.
    + apply genericFallbackUrl_nonempty.
  - eexists; eexists; split; [reflexivity|].
    split; [apply quiet_refl | eapply get_prop_throw; eauto].
Qed.

Lemma map_async_run drafts : forall s,
  exists rs s',
    map_async with_image drafts s = (Ok rs, s') /\ quiet s s' /\
    Forall2 (fun d r => match r with
                        | Ok p => post_of d p
                        | Throw _ => nullish d = true
                        end) drafts rs.
Proof.
  induction drafts as [|d rest IH]; intros s; simpl.
  - exists [], s. split; [reflexivity|]. split; [apply quiet_refl | constructor].
  - destruct (with_image_run d s) as (r & s1 & Hrun & Hq1 & Hr).
    rewrite Hrun.
    destruct (IH s1) as (rs & s2 & Hrest & Hq2 & Hrs).
    rewrite Hrest.
    exists (r :: rs), s2. split; [reflexivity|].
    split; [eapply quiet_trans; eauto | now constructor].
Qed.

Lemma all_settled_ok drafts rs values :
  Forall2 (fun d r => match r with
                      | Ok p => post_of d p
                      | Throw _ => nullish d = true
                      end) drafts rs ->
  all_settled rs = Ok values ->
  Forall2 post_of drafts values.
Proof.
  intros H. revert values.
  induction H as [|d r drafts rs Hr _ IH]; simpl; intros values.
  - intros E. injection E as <-. constructor.
  - destruct r as [p|e]; [|discriminate].
    destruct (all_settled rs) as [vs|]; simpl; [|discriminate].
    intros E. injection E as <-. constructor; [exact Hr | now apply IH].
Qed.

Lemma all_settled_throw drafts rs e :
  Forall2 (fun d r => match r with
                      | Ok p => post_of d p
                      | Throw _ => nullish d = true
                      end) drafts rs ->
  all_settled rs = Throw e ->
  Exists (fun d => nullish d = true) drafts.
Proof.
  intros H.
  induction H as [|d r drafts rs Hr _ IH]; simpl.
  - discriminate.
  - destruct r as [p|e']; [|intros _; now left].
    destruct (all_settled rs) as [vs|]; simpl; [discriminate|].
    intros E. right. exact (IH E).
Qed.

Lemma post_of_not_nullish drafts values :
  Forall2 post_of drafts values -> Forall (fun d => nullish d = false) drafts.
Proof.
  induction 1 as [|d p ds ps [Hn _] _ IH]; constructor; assumption.
Qed.

Lemma post_of_objects drafts values :
  Forall2 post_of drafts values -> Forall is_object values.
Proof.
  induction 1 as [|d p ds ps (_ & url & _ & ->) _ IH]; constructor;
    [eexists; reflexivity | assumption].
Qed.

(** The two ways the [try] block of the effect ends: with the posts
    published, every draft having received its image; or with a throw,
    nothing published, because the facade's value is not an array or holds
    a [null]. *)
Lemma fetch_try_cases backend :
  (exists drafts values s',
      settled_drafts (backend 0 content_request) = JArr drafts /\
      Forall2 post_of drafts values /\
      fetch_try (mounted backend) = (Ok tt, s') /\
      view s' = {| posts := {| arr_ref := 1; arr_items := values |};
                   selectedPost := JNull; isLoading := true;
                   error := JNull |} /\
      api s' = backend /\ scrolls s' = 0) \/
  (exists e s',
      fetch_try (mounted backend) = (Throw e, s') /\
      view s' = view (mounted backend) /\
      api s' = backend /\ scrolls s' = 0 /\
      forall drafts,
        settled_drafts (backend 0 content_request) = JArr drafts ->
        Exists (fun d => nullish d = true) drafts).
Proof.
  unfold fetch_try, bind.
  destruct (generateBlogContent_run (mounted backend))
    as (s1 & Hrun & Hv1 & Ha1 & Hn1 & Hs1).
  rewrite Hrun. simpl length. simpl api.
  set (g := settled_drafts (backend 0 content_request)).
  assert (Hthrow : forall s, (exists drafts, g = JArr drafts) \/
            (promise_all_map g with_image s = (Throw TypeError, s))).
  { intros s. destruct g; simpl; eauto. }
  destruct (Hthrow s1) as [[drafts Hg] | Hnot].
  - rewrite Hg. unfold promise_all_map, bind, lift.
    destruct (map_async_run drafts s1)
      as (rs & s2 & Hmap & (Hv2 & Ha2 & Hn2 & Hs2) & Hrs).
    rewrite Hmap.
    destruct (all_settled rs) as [values|e] eqn:Hall.
    + left. exists drafts, values. eexists.
      split; [reflexivity|]. split; [eapply all_settled_ok; eauto|].
      split; [reflexivity|].
      simpl. rewrite Hv2, Hv1, Hn2, Hn1, Ha2, Ha1, Hs2, Hs1.
      repeat split.
    + right. exists e, s2. split; [reflexivity|].
      split; [congruence|].
      split; [rewrite Ha2, Ha1; reflexivity|].
      split; [rewrite Hs2, Hs1; reflexivity|].
      intros drafts' E. injection E as <-.
      eapply all_settled_throw; eauto.
  - right. rewrite Hnot. exists TypeError, s1.
    split; [reflexivity|].
    split; [exact Hv1|]. split; [exact Ha1|]. split; [exact Hs1|].
    intros drafts E. rewrite E in Hnot. simpl in Hnot.
    unfold bind in Hnot.
    destruct (map_async_run drafts s1) as (rs & s2 & Hmap & _ & _).
    rewrite Hmap in Hnot. unfold lift, new_array in Hnot.
    destruct (all_settled rs) eqn:Hall; [discriminate|].
    destruct (map_async_run drafts s1) as (rs' & s2' & Hmap' & _ & Hrs').
    rewrite Hmap in Hmap'. injection Hmap' as <- <-.
    eapply all_settled_throw; eauto.
Qed.

End PipelineFacts.

(** ** The view state machine *)

Section ViewFacts.
Context {host : Host}.

Lemma loaded_eq backend :
  loaded backend =
  snd (try_finally
         (try_catch fetch_try (fun _ => setError (JStr failure_message)))
         (setIsLoading false) (mounted backend)).
Proof. reflexivity. Qed.

(** The state after the effect: the posts are published and the view is
    ready, or the [try] block threw and the view is errored. *)
Lemma loaded_cases backend :
  (exists drafts values,
      settled_drafts (backend 0 content_request) = JArr drafts /\
      Forall2 post_of drafts values /\
      fst (fetch_try (mounted backend)) = Ok tt /\
      view (loaded backend) =
        cells_of (Ready {| arr_ref := 1; arr_items := values |} None)) \/
  (exists e,
      fst (fetch_try (mounted backend)) = Throw e /\
      view (loaded backend) = cells_of (Errored (JStr failure_message)) /\
      forall drafts,
        settled_drafts (backend 0 content_request) = JArr drafts ->
        Exists (fun d => nullish d = true) drafts).
Proof.
  rewrite loaded_eq. unfold try_finally, try_catch.
  destruct (fetch_try_cases backend)
    as [(drafts & values & s' & Hg & Hposts & Hrun & Hv & _)
       | (e & s' & Hrun & Hv & _ & _ & Hnull)].
  - left. exists drafts, values. rewrite Hrun.
    split; [exact Hg|]. split; [exact Hposts|]. split; [reflexivity|].
    simpl. now rewrite Hv.
  - right. exists e. rewrite Hrun.
    split; [reflexivity|]. split; [|exact Hnull].
    simpl. now rewrite Hv.
Qed.

Lemma loaded_settled backend :
  loaded backend = snd (setIsLoading false (settled backend)).
Proof.
  rewrite loaded_eq. unfold settled, try_finally.
  destruct (try_catch fetch_try _ (mounted backend)). reflexivity.
Qed.

(** Between the two updates the view is still loading; it already holds the
    posts, or the error. *)
Lemma settled_cases backend :
  api (settled backend) = backend /\
  isLoading (view (settled backend)) = true /\
  selectedPost (view (settled backend)) = JNull /\
  Forall is_object (arr_items (posts (view (settled backend)))).
Proof.
  unfold settled, try_catch.
  destruct (fetch_try_cases backend)
    as [(drafts & values & s' & _ & Hposts & Hrun & Hv & Ha & _)
       | (e & s' & Hrun & Hv & Ha & _)];
    rewrite Hrun; simpl; rewrite Hv; simpl.
  - repeat split; [exact Ha|]. eapply post_of_objects; eauto.
  - repeat split; [exact Ha|]. constructor.
Qed.

Lemma loaded_frame backend :
  api (loaded backend) = backend /\ scrolls (loaded backend) = 0.
Proof.
  rewrite loaded_eq. unfold try_finally, try_catch.
  destruct (fetch_try_cases backend)
    as [(drafts & values & s' & _ & _ & Hrun & _ & Ha & Hs)
       | (e & s' & Hrun & _ & Ha & Hs & _)];
    rewrite Hrun; simpl; auto.
Qed.

Lemma handleReadMore_run post s :
  handleReadMore post s =
  (Ok tt,
   {| api := api s; calls := calls s; console := console s;
      scrolls := S (scrolls s); next_ref := next_ref s;
      view := {| posts := posts (view s); selectedPost := post;
                 isLoading := isLoading (view s);
                 error := error (view s) |} |}).
Proof. reflexivity. Qed.

Lemma handleBack_run s :
  handleBack s =
  (Ok tt,
   {| api := api s; calls := calls s; console := console s;
      scrolls := scrolls s; next_ref := next_ref s;
      view := {| posts := posts (view s); selectedPost := JNull;
                 isLoading := isLoading (view s);
                 error := error (view s) |} |}).
Proof. reflexivity. Qed.

Lemma element_key_ok (v k : val) : element_key v = Ok k -> k = v.
Proof.
  unfold element_key.
  destruct v; try (destruct (to_string _); simpl); intros H;
    try discriminate; now injection H.
Qed.

Lemma child_ok (v c : val) : child v = Ok c -> c = v /\ valid_child v = true.
Proof.
  unfold child. destruct (valid_child v); [|discriminate].
  intros H. injection H as <-. split; reflexivity.
Qed.

Lemma attribute_ok (v a : val) :
  attribute v = Ok a -> a = v /\ printable v = true.
Proof.
  unfold attribute, printable.
  destruct (to_string v); simpl; [|discriminate].
  intros H. injection H as <-. split; reflexivity.
Qed.

(** What a card that has rendered tells about its post. *)
Lemma render_card_inv post c :
  render_card post = Ok c ->
  card_post c = post /\
  get_prop post "id" = Ok (card_key c) /\
  element_key (card_key c) = Ok (card_key c) /\
  render_image post = Ok (card_image c) /\
  get_prop post "title" = Ok (card_title c) /\
  valid_child (card_title c) = true /\
  get_prop post "date" = Ok (card_date c) /\
  valid_child (card_date c) = true /\
  get_prop post "summary" = Ok (card_summary c) /\
  valid_child (card_summary c) = true.
Proof.
  unfold render_card.
  destruct (get_prop post "id") as [id|]; simpl; [|discriminate].
  destruct (element_key id) as [k|] eqn:K; simpl; [|discriminate].
  destruct (render_image post) as [img|]; simpl; [|discriminate].
  destruct (get_prop post "title") as [t|]; simpl; [|discriminate].
  destruct (child t) as [t'|] eqn:Ct; simpl; [|discriminate].
  destruct (get_prop post "date") as [d|]; simpl; [|discriminate].
  destruct (child d) as [d'|] eqn:Cd; simpl; [|discriminate].
  destruct (get_prop post "summary") as [m|]; simpl; [|discriminate].
  destruct (child m) as [m'|] eqn:Cm; simpl; [|discriminate].
  intros H. injection H as <-. simpl.
  pose proof (element_key_ok _ _ K) as ->.
  destruct (child_ok _ _ Ct) as (-> & Ht).
  destruct (child_ok _ _ Cd) as (-> & Hd).
  destruct (child_ok _ _ Cm) as (-> & Hm).
  repeat split; assumption.
Qed.

Lemma render_card_post post c : render_card post = Ok c -> card_post c = post.
Proof. intros H. apply (render_card_inv _ _ H). Qed.

Lemma render_cards_posts ps : forall cards,
  render_cards ps = Ok cards -> map card_post cards = ps.
Proof.
  induction ps as [|p ps IH]; simpl; intros cards.
  - intros H. injection H as <-. reflexivity.
  - destruct (render_card p) as [c|] eqn:Hc; simpl; [|discriminate].
    destruct (render_cards ps) as [cs|]; simpl; [|discriminate].
    intros H. injection H as <-. simpl.
    now rewrite (render_card_post _ _ Hc), (IH cs).
Qed.

(** Every card of a grid that has rendered is the card of its post. *)
Lemma render_cards_inv ps : forall cards,
  render_cards ps = Ok cards ->
  Forall2 (fun p c => render_card p = Ok c) ps cards.
Proof.
  induction ps as [|p ps IH]; simpl; intros cards.
  - intros H. injection H as <-. constructor.
  - destruct (render_card p) as [c|] eqn:Hc; simpl; [|discriminate].
    destruct (render_cards ps) as [cs|]; simpl; [|discriminate].
    intros H. injection H as <-. constructor; [exact Hc | now apply IH].
Qed.

Lemma render_cards_all ps :
  Forall (fun p => exists c, render_card p = Ok c) ps ->
  exists cards, render_cards ps = Ok cards.
Proof.
  induction 1 as [|p ps (c & Hc) _ (cards & Hr)]; simpl.
  - eauto.
  - rewrite Hc; simpl. rewrite Hr; simpl. eauto.
Qed.

(** An article that has rendered is a detail view of the post's own title,
    date and content. *)
Lemma render_detail_inv selected w :
  render_detail selected = Ok w ->
  exists title date image content,
    w = DetailView title date image content /\
    get_prop selected "title" = Ok title /\
    get_prop selected "date" = Ok date /\
    get_prop selected "content" = Ok content.
Proof.
  unfold render_detail.
  destruct (get_prop selected "title") as [t|]; simpl; [|discriminate].
  destruct (child t) as [t'|] eqn:Ct; simpl; [|discriminate].
  destruct (get_prop selected "date") as [d|]; simpl; [|discriminate].
  destruct (child d) as [d'|] eqn:Cd; simpl; [|discriminate].
  destruct (render_image selected) as [img|]; simpl; [|discriminate].
  destruct (get_prop selected "content") as [ct|]; simpl; [|discriminate].
  intros H. injection H as <-.
  destruct (child_ok _ _ Ct) as (-> & _).
  destruct (child_ok _ _ Cd) as (-> & _).
  do 4 eexists. repeat split.
Qed.

(** A post whose card has rendered can be opened: its article shows what
    the card showed. *)
Lemma render_detail_of_card post c :
  render_card post = Ok c ->
  exists content,
    get_prop post "content" = Ok content /\
    render_detail post
      = Ok (DetailView (card_title c) (card_date c) (card_image c) content).
Proof.
  intros Hc.
  destruct (render_card_inv _ _ Hc)
    as (_ & Hid & _ & Hi & Ht & Hvt & Hd & Hvd & _).
  pose proof (get_prop_ok _ _ _ Hid) as Hn.
  unfold render_detail, child.
  rewrite Ht; simpl. rewrite Hvt; simpl. rewrite Hd; simpl.
  rewrite Hvd; simpl. rewrite Hi; simpl.
  unfold get_prop. rewrite Hn. simpl. eauto.
Qed.

Lemma render_cards_each ps : forall cards c,
  render_cards ps = Ok cards -> In c cards ->
  exists p, In p ps /\ render_card p = Ok c.
Proof.
  induction ps as [|p ps IH]; simpl; intros cards c.
  - intros H. injection H as <-. intros [].
  - destruct (render_card p) as [c0|] eqn:Hc; simpl; [|discriminate].
    destruct (render_cards ps) as [cs|]; simpl; [|discriminate].
    intros H. injection H as <-. intros [<- | Hin].
    + exists p. split; [now left | exact Hc].
    + destruct (IH cs c eq_refl Hin) as (q & Hq & Hr).
      exists q. split; [now right | exact Hr].
Qed.

Lemma render_detail_kind selected w :
  render_detail selected = Ok w -> kind_of w = KDetail.
Proof.
  intros H. destruct (render_detail_inv _ _ H) as (t & d & i & c & -> & _).
  reflexivity.
Qed.

(** The grid is rendered only when nothing else is. *)
Lemma render_list_inv v cards :
  render v = Ok (ListView cards) ->
  isLoading v = false /\ truthy (error v) = false /\
  truthy (selectedPost v) = false /\
  render_cards (arr_items (posts v)) = Ok cards.
Proof.
  unfold render.
  destruct (isLoading v); [discriminate|].
  destruct (truthy (error v)); [discriminate|].
  destruct (truthy (selectedPost v)).
  - intros H. apply render_detail_kind in H. discriminate H.
  - destruct (render_cards (arr_items (posts v))); simpl; [|discriminate].
    intros H. injection H as <-. repeat split.
Qed.

(** In a ready state the error cell is [null] and the selection is [null]
    or truthy. *)
Lemma well_formed_ready v :
  well_formed v -> is_ready v = true ->
  isLoading v = false /\ error v = JNull /\
  (selectedPost v = JNull \/ truthy (selectedPost v) = true).
Proof.
  intros (Hc & _ & _) Hr. unfold is_ready in Hr.
  destruct v as [ps sel l err]; simpl in *.
  apply andb_true_iff in Hr. destruct Hr as [Hl He].
  apply negb_true_iff in Hl, He. subst l.
  specialize (Hc eq_refl).
  unfold tag_of in Hc; simpl in Hc. rewrite He in Hc.
  destruct (truthy sel) eqn:Ts; simpl in Hc; injection Hc; intros;
    subst; auto.
Qed.

Lemma well_formed_mounted backend : well_formed (view (mounted backend)).
Proof.
  split; [intros H; discriminate H|]. split; [constructor | now left].
Qed.

Lemma well_formed_settled backend : well_formed (view (settled backend)).
Proof.
  destruct (settled_cases backend) as (_ & Hl & Hsel & Hobj).
  split; [rewrite Hl; discriminate|]. split; [exact Hobj | now left].
Qed.

Lemma well_formed_loaded backend : well_formed (view (loaded backend)).
Proof.
  destruct (loaded_cases backend)
    as [(drafts & values & _ & Hposts & _ & ->) | (e & _ & -> & _)].
  - split; [reflexivity|]. split; [|now left].
    simpl. eapply post_of_objects; eauto.
  - split; [reflexivity|]. split; [constructor | now left].
Qed.

End ViewFacts.

Section MachineFacts.
Context {host : Host}.

(** A button can only be pressed in a ready state: the back button when a
    post is selected, a card's button, with that card's post, when none is. *)
Lemma click_cases v w e :
  well_formed v -> render v = Ok w -> In e (actions w) ->
  isLoading v = false /\ error v = JNull /\
  ((e = Back /\ truthy (selectedPost v) = true) \/
   (exists post, e = ReadMore post /\ selectedPost v = JNull /\
                 In post (arr_items (posts v)))).
Proof.
  intros Hwf Hr Hin. unfold render in Hr.
  destruct (isLoading v) eqn:Hl.
  { injection Hr as <-. destruct Hin. }
  destruct (truthy (error v)) eqn:He.
  { injection Hr as <-. destruct Hin. }
  assert (Hready : is_ready v = true) by (unfold is_ready; now rewrite Hl, He).
  destruct (well_formed_ready v Hwf Hready) as (_ & Herr & Hsel).
  split; [reflexivity|]. split; [exact Herr|].
  destruct (truthy (selectedPost v)) eqn:Ts.
  - left. split; [|reflexivity].
    destruct (render_detail_inv _ _ Hr) as (t & d & i & c & -> & _).
    destruct Hin as [<- | []]. reflexivity.
  - right. destruct Hsel as [Hsel | Hsel]; [|discriminate].
    destruct (render_cards (arr_items (posts v))) as [cards|] eqn:Hc;
      simpl in Hr; [|discriminate].
    injection Hr as <-. simpl in Hin.
    apply in_map_iff in Hin. destruct Hin as (c & <- & Hcin).
    exists (card_post c). split; [reflexivity|]. split; [exact Hsel|].
    rewrite <- (render_cards_posts _ _ Hc). now apply in_map.
Qed.

Lemma step_well_formed s s' :
  well_formed (view s) -> step s s' -> well_formed (view s').
Proof.
  intros Hwf Hstep. destruct Hstep as [backend | backend | s w e Hr Hin].
  - apply well_formed_settled.
  - apply well_formed_loaded.
  - destruct (click_cases _ _ _ Hwf Hr Hin)
      as (Hl & He & [[-> _] | (post & -> & Hsel & Hpost)]);
      destruct Hwf as (_ & Hobj & _);
      simpl; destruct (view s) as [ps sel l err]; simpl in *; subst.
    + split; [reflexivity|]. split; [exact Hobj | now left].
    + assert (Ho : is_object post)
        by (rewrite Forall_forall in Hobj; now apply Hobj).
      destruct Ho as [props ->].
      split; [reflexivity|]. split; [exact Hobj | now right].
Qed.

Lemma reachable_well_formed backend s :
  reachable backend s -> well_formed (view s).
Proof.
  induction 1 as [|s s' _ IH Hstep].
  - apply well_formed_mounted.
  - eapply step_well_formed; eauto.
Qed.

(** The effect runs once: every reachable state is the mounted one, the
    one between the two updates of the effect, or a state after the load,
    where posts, error and requests stay as the effect left them. *)
Lemma reachable_phase backend s :
  reachable backend s ->
  s = mounted backend \/ s = settled backend \/ after_load backend s.
Proof.
  induction 1 as [|s s' Hreach IH Hstep].
  - now left.
  - destruct Hstep as [backend' | backend' | s w e Hr Hin].
    + right; left.
      assert (backend' = backend); [|now subst].
      destruct IH as [Heq | [Heq | (Hl & _)]]; [| |discriminate].
      * change (api (mounted backend') = api (mounted backend)).
        now rewrite Heq.
      * destruct (settled_cases backend) as (Ha & _).
        rewrite <- Ha, <- Heq. reflexivity.
    + right; right.
      destruct (settled_cases backend') as (Ha' & Hl' & _).
      assert (backend' = backend).
      { destruct IH as [Heq | [Heq | (Hl & _)]].
        - rewrite <- Ha', Heq. reflexivity.
        - destruct (settled_cases backend) as (Ha & _).
          rewrite <- Ha', Heq. exact Ha.
        - rewrite Hl' in Hl. discriminate. }
      subst backend'.
      destruct (loaded_cases backend)
        as [(? & ? & _ & _ & _ & Hv) | (? & _ & Hv & _)];
        (split; [now rewrite Hv | repeat split]).
    + right; right.
      pose proof (reachable_well_formed _ _ Hreach) as Hwf.
      destruct (click_cases _ _ _ Hwf Hr Hin) as (Hl & _ & _).
      destruct IH as [-> | [-> | (_ & Hp & He & Hc & Hn)]].
      * discriminate.
      * destruct (settled_cases backend) as (_ & Hl' & _).
        rewrite Hl' in Hl. discriminate.
      * destruct e as [post|]; unfold after_load; simpl;
          repeat split; assumption.
Qed.

(** An empty sequence of drafts is published as an empty collection. *)
Lemma empty_drafts_loaded backend :
  settled_drafts (backend 0 content_request) = JArr [] ->
  view (loaded backend) =
  cells_of (Ready {| arr_ref := 1; arr_items := [] |} None).
Proof.
  intros Hg.
  destruct (loaded_cases backend)
    as [(drafts & values & Hd & Hposts & _ & ->) | (e & _ & _ & Hnull)].
  - rewrite Hg in Hd. injection Hd as <-. inversion Hposts. reflexivity.
  - specialize (Hnull [] Hg). inversion Hnull.
Qed.

Lemma generateBlogContent_mounted backend :
  fst (generateBlogContent (mounted backend)) =
  Ok (settled_drafts (backend 0 content_request)).
Proof.
  destruct (generateBlogContent_run (mounted backend)) as (s' & -> & _).
  reflexivity.
Qed.

Lemma printable_attribute (v : val) :
  printable v = true -> attribute v = Ok v.
Proof.
  unfold printable, attribute. destruct (to_string v); simpl;
    [reflexivity | discriminate].
Qed.

Lemma element_key_cases (v : val) :
  element_key v = Ok v <-> (v = JUndefined \/ printable v = true).
Proof.
  unfold printable.
  destruct v;
    try (cbv beta iota delta [element_key];
         destruct (to_string _); cbv beta iota delta [rbind is_ok];
         (split; [intros H; try discriminate H; now right
                 | intros [H | H]; try discriminate H; reflexivity])).
  split; [now left | reflexivity].
Qed.

(** The card of a post renders exactly when the post is displayable. *)
Lemma render_card_displayable post :
  displayable post <-> exists c, render_card post = Ok c.
Proof.
  split.
  - intros (id & t & d & m & u & Gid & Gt & Gd & Gm & Gu
            & Hid & Ht & Hd & Hm & Hu).
    unfold render_card, render_image, child.
    rewrite Gid; simpl.
    rewrite (proj2 (element_key_cases id) Hid); simpl.
    rewrite Gu; simpl. rewrite Gt; simpl.
    rewrite Ht, Gd; simpl. rewrite Hd, Gm; simpl. rewrite Hm.
    destruct (truthy u); simpl.
    + destruct (Hu eq_refl) as (Pu & Pt).
      rewrite (printable_attribute _ Pu); simpl.
      rewrite (printable_attribute _ Pt); simpl. eauto.
    + eauto.
  - intros (c & Hc).
    destruct (render_card_inv _ _ Hc)
      as (_ & Gid & Hk & Hi & Gt & Ht & Gd & Hd & Gm & Hm).
    pose proof (get_prop_ok _ _ _ Gid) as Hn.
    assert (Gu : exists u, get_prop post "imageUrl" = Ok u)
      by (unfold get_prop; rewrite Hn; eauto).
    destruct Gu as (u & Gu).
    exists (card_key c), (card_title c), (card_date c), (card_summary c), u.
    repeat (split; [assumption|]).
    split; [now apply element_key_cases|].
    repeat (split; [assumption|]).
    intros Tu. unfold render_image in Hi.
    rewrite Gu in Hi; simpl in Hi. rewrite Tu, Gt in Hi; simpl in Hi.
    destruct (attribute u) as [u'|] eqn:Au; simpl in Hi; [|discriminate].
    destruct (attribute (card_title c)) as [t'|] eqn:At; simpl in Hi;
      [|discriminate].
    split; [apply (attribute_ok _ _ Au) | apply (attribute_ok _ _ At)].
Qed.

Lemma render_cards_displayable ps :
  Forall displayable ps <-> exists cards, render_cards ps = Ok cards.
Proof.
  split.
  - intros H. apply render_cards_all.
    eapply Forall_impl; [|exact H].
    intros p Hp. now apply render_card_displayable.
  - intros (cards & Hr). apply render_cards_inv in Hr.
    induction Hr as [|p c ps cs Hc _ IH]; constructor; [|exact IH].
    apply render_card_displayable. eauto.
Qed.

(** In every state the component can reach, the selected post is one whose
    card has rendered, so its article renders. *)
Lemma reachable_selection_renders backend s :
  reachable backend s ->
  truthy (selectedPost (view s)) = true ->
  exists title date image content,
    render_detail (selectedPost (view s))
      = Ok (DetailView title date image content).
Proof.
  induction 1 as [|s s' Hreach IH Hstep]; [discriminate|].
  destruct Hstep as [b | b | s w e Hr Hin].
  - destruct (settled_cases b) as (_ & _ & -> & _). discriminate.
  - destruct (well_formed_loaded b) as (Hcells & _ & _).
    destruct (loaded_cases b)
      as [(? & ? & _ & _ & _ & ->) | (? & _ & -> & _)]; discriminate.
  - pose proof (reachable_well_formed _ _ Hreach) as Hwf.
    destruct (click_cases _ _ _ Hwf Hr Hin)
      as (Hl & He & [[-> _] | (post & -> & Hsel & Hpost)]);
      simpl; [discriminate|].
    intros _.
    unfold render in Hr. rewrite Hl, He, Hsel in Hr. simpl in Hr.
    destruct (render_cards (arr_items (posts (view s)))) as [cards|] eqn:Hc;
      simpl in Hr; [|discriminate].
    apply render_cards_inv in Hc.
    assert (Hcard : exists c, render_card post = Ok c).
    { clear - Hc Hpost.
      induction Hc as [|p c ps cs Hpc _ IHc]; [destruct Hpost|].
      destruct Hpost as [-> | Hpost]; eauto. }
    destruct Hcard as (c & Hcard).
    destruct (render_detail_of_card _ _ Hcard) as (content & _ & Hd).
    eauto.
Qed.

End MachineFacts.

(** ** The facade *)

Section FacadeTheorems.
Context {host : Host}.

(** C2. [generateImage] is total: whatever the prompt and however the call
    settles, it returns a string and the view state is untouched; and when
    no response with an inline image part comes back (the call throws, the
    candidates are empty, no part carries inline data) the string is the
    fixed placeholder. *)
Theorem generateImage_total (imagePrompt : val) (s : Sys) :
  exists url s',
    generateImage imagePrompt s = (Ok url, s') /\
    view s' = view s /\
    ((forall topic response,
         to_string imagePrompt = Ok topic ->
         api s (length (calls s)) (image_request topic) = Returned response ->
         ~ has_inline_part response) ->
     url = genericFallbackUrl).
Proof.
  destruct (generateImage_run imagePrompt s) as (s' & Hrun & Hview & _).
  eexists; exists s'. split; [exact Hrun|]. split; [exact Hview|].
  intros Hnone.
  destruct (to_string imagePrompt) as [topic|]; [|reflexivity].
  specialize (Hnone topic).
  destruct (api s (length (calls s)) (image_request topic))
    as [reason|response]; simpl; [reflexivity|].
  specialize (Hnone response eq_refl eq_refl).
  destruct (image_of_response response) as [url|] eqn:E; [|reflexivity].
  destruct (image_of_response_cases _ _ E) as [-> | [Hpart _]];
    [reflexivity | contradiction].
Qed.

(** C10. When the response carries an inline image part whose [inlineData]
    has no [mimeType], [generateImage] returns
    [data:image/jpeg;base64,] followed by the text of the payload. *)
Theorem missing_mimeType_defaults_to_jpeg
    (imagePrompt : val) (s : Sys) (topic : string)
    (response part inlineData payload : val) (text : string) :
  to_string imagePrompt = Ok topic ->
  api s (length (calls s)) (image_request topic) = Returned response ->
  first_inline_part response part ->
  get_prop part "inlineData" = Ok inlineData ->
  lookup "mimeType" (own_props inlineData) = None ->
  get_prop inlineData "data" = Ok payload ->
  to_string payload = Ok text ->
  fst (generateImage imagePrompt s) = Ok ("data:image/jpeg;base64," ++ text).
Proof.
  intros Htopic Hapi Hfirst Hinline Hmime Hdata Htext.
  destruct (generateImage_run imagePrompt s) as (s' & -> & _).
  rewrite Htopic, Hapi. simpl. f_equal.
  pose proof (first_inline_part_found _ _ Hfirst) as Hfind.
  destruct Hfirst as (_ & _ & _ & _ & _ & d & _ & _ & _ & _ & _ & Hg & Ht).
  rewrite Hinline in Hg. injection Hg as <-.
  pose proof (truthy_property _ _ _ Hinline Ht) as Hpart.
  assert (Hm : get_prop inlineData "mimeType" = Ok JUndefined).
  { unfold get_prop. rewrite (truthy_not_nullish _ Ht), Hmime. reflexivity. }
  unfold image_of_response, part_and_inlineData, data_url.
  rewrite Hfind; simpl. rewrite Hpart, Hinline; simpl. rewrite Ht.
  rewrite Hm; simpl. rewrite Hdata; simpl.
  rewrite Htext; simpl. reflexivity.
Qed.

(** C3, as the code has it. [generateBlogContent] never throws and leaves
    the view state alone.  When its call throws, when the response has no
    readable [text], or when [JSON.parse] rejects the text, it returns the
    empty array; a text that parses is returned as parsed, whatever its
    shape.  The effect publishes the empty array as an empty collection in
    a ready view. *)
Theorem generateBlogContent_degrades_on_throw (s : Sys) :
  (exists s',
      generateBlogContent s =
        (Ok (settled_drafts (api s (length (calls s)) content_request)), s') /\
      view s' = view s) /\
  (forall reason,
      api s (length (calls s)) content_request = Threw reason ->
      fst (generateBlogContent s) = Ok (JArr [])) /\
  (forall response e,
      api s (length (calls s)) content_request = Returned response ->
      rbind (get_prop response "text") json_parse = Throw e ->
      fst (generateBlogContent s) = Ok (JArr [])) /\
  (forall response parsed,
      api s (length (calls s)) content_request = Returned response ->
      rbind (get_prop response "text") json_parse = Ok parsed ->
      fst (generateBlogContent s) = Ok parsed) /\
  (forall backend,
      s = mounted backend ->
      fst (generateBlogContent s) = Ok (JArr []) ->
      is_ready (view (loaded backend)) = true /\
      arr_items (posts (view (loaded backend))) = []).
Proof.
  destruct (generateBlogContent_run s) as (s' & Hrun & Hview & _).
  split; [exists s'; split; assumption|].
  rewrite Hrun. simpl fst.
  split; [intros reason ->; reflexivity|].
  split; [intros response e -> E; simpl; now rewrite E|].
  split; [intros response parsed -> E; simpl; now rewrite E|].
  intros backend -> E. simpl in E. injection E as E.
  rewrite (empty_drafts_loaded backend E). split; reflexivity.
Qed.

End FacadeTheorems.

(** ** The pipeline and the view *)

Section PipelineTheorems.
Context {host : Host}.


(** C4. When [generateBlogContent] returns the empty array, the effect ends
    in the ready state: loading cleared, no error, no selection, zero posts,
    and the empty grid rendered. *)
Theorem empty_drafts_reach_ready backend :
  fst (generateBlogContent (mounted backend)) = Ok (JArr []) ->
  is_ok (fst (fetch_try (mounted backend))) = true /\
  isLoading (view (loaded backend)) = false /\
  error (view (loaded backend)) = JNull /\
  selectedPost (view (loaded backend)) = JNull /\
  arr_items (posts (view (loaded backend))) = [] /\
  is_errored (view (loaded backend)) = false /\
  tag_of (view (loaded backend)) = Ready (posts (view (loaded backend))) None /\
  render (view (loaded backend)) = Ok (ListView []).
Proof.
  rewrite generateBlogContent_mounted. intros E. injection E as E.
  split.
  - destruct (loaded_cases backend)
      as [(_ & _ & _ & _ & -> & _) | (e & _ & _ & Hnull)]; [reflexivity|].
    specialize (Hnull [] E). inversion Hnull.
  - rewrite (empty_drafts_loaded backend E). repeat split.
Qed.

(** C9, as the code has it. The pipeline copies the draft's [id] into the
    post unchanged, and whenever the grid is rendered that value is the key
    of the post's card: after a successful run the [id] of the post at each
    index is the [id] of the draft at that index, and so is the key of the
    card at that index, so it is a non-empty string exactly when the
    backend gave the draft one. *)
Theorem post_id_is_draft_id backend :
  is_ok (fst (fetch_try (mounted backend))) = true ->
  exists drafts,
    fst (generateBlogContent (mounted backend)) = Ok (JArr drafts) /\
    Forall2 (fun draft post => get_prop post "id" = get_prop draft "id")
      drafts (arr_items (posts (view (loaded backend)))) /\
    forall cards,
      render (view (loaded backend)) = Ok (ListView cards) ->
      map card_post cards = arr_items (posts (view (loaded backend))) /\
      Forall2 (fun draft c => get_prop draft "id" = Ok (card_key c) /\
                              get_prop (card_post c) "id" = Ok (card_key c))
        drafts cards.
Proof.
  intros Hok.
  destruct (loaded_cases backend)
    as [(drafts & values & Hd & Hposts & _ & ->) | (e & He & _)];
    [|rewrite He in Hok; discriminate].
  exists drafts. rewrite generateBlogContent_mounted, Hd.
  split; [reflexivity|].
  assert (Hids : Forall2 (fun draft post =>
                            get_prop post "id" = get_prop draft "id")
                   drafts values).
  { clear Hd Hok.
    induction Hposts as [|d p ds ps (Hn & url & _ & ->) _ IH];
      constructor; [|exact IH].
    apply spread_with_other; [exact Hn | discriminate]. }
  split; [exact Hids|].
  intros cards Hr. unfold render in Hr. simpl in Hr.
  destruct (render_cards values) as [cs|] eqn:Hcs; simpl in Hr;
    [|discriminate].
  injection Hr as ->.
  split; [eapply render_cards_posts; eauto|].
  apply render_cards_inv in Hcs.
  clear Hd Hok Hposts. revert cards Hcs.
  induction Hids as [|d p ds ps Hid _ IH]; intros cards Hcs;
    inversion Hcs as [|p' c ps' cs' Hc Hrest]; subst; constructor;
    [|now apply IH].
  destruct (render_card_inv _ _ Hc) as (Hcp & Hkey & _).
  rewrite Hcp. split; [|exact Hkey]. now rewrite <- Hid.
Qed.

End PipelineTheorems.

Section ViewTheorems.
Context {host : Host}.

(** C5. In every state the component can reach once the load has completed,
    [handleReadMore] followed by the back action leaves the posts cell
    holding the same array (same identity, same elements), loading and
    error as before, no request sent, and the selection cleared.  In a
    ready state the component is then in the list state of the same
    collection and renders the grid of the same posts.  When the grid is
    rendered and the post is one of its cards, both actions are transitions
    of the component, the four cells end as they started and the same grid
    is rendered again. *)
Theorem select_then_clear_restores_list backend s (post : val) :
  reachable backend s ->
  isLoading (view s) = false ->
  fst (handleReadMore post s) = Ok tt /\
  fst (handleBack (snd (handleReadMore post s))) = Ok tt /\
  posts (view (snd (handleBack (snd (handleReadMore post s)))))
    = posts (view s) /\
  isLoading (view (snd (handleBack (snd (handleReadMore post s)))))
    = isLoading (view s) /\
  error (view (snd (handleBack (snd (handleReadMore post s)))))
    = error (view s) /\
  selectedPost (view (snd (handleBack (snd (handleReadMore post s)))))
    = JNull /\
  calls (snd (handleBack (snd (handleReadMore post s)))) = calls s /\
  (is_ready (view s) = true ->
   tag_of (view (snd (handleBack (snd (handleReadMore post s)))))
     = Ready (posts (view s)) None /\
   render (view (snd (handleBack (snd (handleReadMore post s)))))
     = rbind (render_cards (arr_items (posts (view s))))
         (fun cards => Ok (ListView cards))) /\
  (forall cards,
      render (view s) = Ok (ListView cards) ->
      In post (map card_post cards) ->
      step s (snd (handleReadMore post s)) /\
      step (snd (handleReadMore post s))
           (snd (handleBack (snd (handleReadMore post s)))) /\
      view (snd (handleBack (snd (handleReadMore post s)))) = view s /\
      render (view (snd (handleBack (snd (handleReadMore post s)))))
        = Ok (ListView cards)).
Proof.
  intros Hreach Hl.
  pose proof (reachable_well_formed _ _ Hreach) as Hwf.
  repeat (split; [reflexivity|]).
  split.
  { intros Hready.
    destruct (well_formed_ready _ Hwf Hready) as (_ & He & _).
    unfold tag_of, render. simpl. rewrite Hl, He. simpl.
    split; reflexivity. }
  intros cards Hr Hin.
  destruct (render_list_inv _ _ Hr) as (_ & Hef & Hsf & Hcards).
  assert (Hready : is_ready (view s) = true)
    by (unfold is_ready; now rewrite Hl, Hef).
  destruct (well_formed_ready _ Hwf Hready) as (_ & He & [Hsel | Hsel]);
    [|congruence].
  apply in_map_iff in Hin. destruct Hin as (c & <- & Hc).
  destruct (render_cards_each _ _ _ Hcards Hc) as (p & Hp & Hcard).
  rewrite (render_card_post _ _ Hcard).
  destruct Hwf as (_ & Hobj & _).
  rewrite Forall_forall in Hobj. destruct (Hobj p Hp) as [props ->].
  assert (Hsame : view (snd (handleBack
                               (snd (handleReadMore (JObj props) s))))
                  = view s).
  { simpl. destruct (view s) as [ps sel l err]; simpl in *. now subst. }
  split; [|split; [|split]].
  - apply (step_click s (ListView cards) (ReadMore (JObj props)));
      [exact Hr|].
    simpl. apply in_map_iff. exists c.
    split; [now rewrite (render_card_post _ _ Hcard) | exact Hc].
  - destruct (render_detail_of_card _ _ Hcard) as (content & _ & Hd).
    apply (step_click (snd (handleReadMore (JObj props) s))
             (DetailView (card_title c) (card_date c) (card_image c) content)
             Back).
    + unfold render. simpl. rewrite Hl, He. simpl. exact Hd.
    + now left.
  - exact Hsame.
  - rewrite Hsame. exact Hr.
Qed.

(** C6, as the code has it. [handleReadMore] checks nothing: it never
    throws, and whatever it is given becomes the selection, the other cells
    staying as they are.  The selection is nevertheless [null] or one of
    the posts in every state the component can reach, because the only
    caller is the button of a card, which passes that card's post. *)
Theorem handleReadMore_accepts_any_value (post : val) (s : Sys) :
  fst (handleReadMore post s) = Ok tt /\
  selectedPost (view (snd (handleReadMore post s))) = post /\
  posts (view (snd (handleReadMore post s))) = posts (view s) /\
  isLoading (view (snd (handleReadMore post s))) = isLoading (view s) /\
  error (view (snd (handleReadMore post s))) = error (view s) /\
  (forall backend,
      reachable backend s ->
      selectedPost (view s) = JNull \/
      In (selectedPost (view s)) (arr_items (posts (view s)))).
Proof.
  rewrite handleReadMore_run. simpl.
  repeat (split; [reflexivity|]).
  intros backend Hreach.
  now destruct (reachable_well_formed _ _ Hreach) as (_ & _ & Hsel).
Qed.

(** C7. The errored state is never left: no transition starts from it.  It
    is reached only when the [try] block of the effect threw, and not when
    the facade returned an empty array.  Once the load has completed, every
    transition is [handleReadMore] or the back action, and it leaves
    posts, loading, error and the requests sent as they were. *)
Theorem errored_terminal_and_selection_only backend s :
  reachable backend s ->
  (is_errored (view s) = true ->
   (forall s', ~ step s s') /\
   exists e, fst (fetch_try (mounted backend)) = Throw e) /\
  (fst (generateBlogContent (mounted backend)) = Ok (JArr []) ->
   is_errored (view s) = false) /\
  (isLoading (view s) = false ->
   forall s', step s s' ->
     ((exists post, s' = snd (handleReadMore post s)) \/
      s' = snd (handleBack s)) /\
     posts (view s') = posts (view s) /\
     isLoading (view s') = false /\
     error (view s') = error (view s) /\
     calls s' = calls s).
Proof.
  intros Hreach.
  pose proof (reachable_well_formed _ _ Hreach) as Hwf.
  pose proof (reachable_phase _ _ Hreach) as Hphase.
  assert (Hclicks : forall s', isLoading (view s) = false -> step s s' ->
            exists w e, render (view s) = Ok w /\ In e (actions w) /\
                        s' = snd (handle e s)).
  { intros s' Hl Hstep. destruct Hstep as [b | b | s0 w e Hr Hin].
    - discriminate.
    - destruct (settled_cases b) as (_ & Hl' & _).
      rewrite Hl' in Hl. discriminate.
    - eauto. }
  split; [|split].
  - intros Herr. unfold is_errored in Herr.
    apply andb_true_iff in Herr. destruct Herr as [Hl Herr].
    apply negb_true_iff in Hl.
    split.
    + intros s' Hstep.
      destruct (Hclicks s' Hl Hstep) as (w & e & Hr & Hin & _).
      destruct (click_cases _ _ _ Hwf Hr Hin) as (_ & He & _).
      rewrite He in Herr. discriminate.
    + destruct Hphase as [-> | [-> | (_ & _ & He & _)]]; [discriminate| |].
      { destruct (settled_cases backend) as (_ & Hl' & _).
        rewrite Hl' in Hl. discriminate. }
      destruct (loaded_cases backend)
        as [(? & ? & _ & _ & _ & Hv) | (e & Hthrow & _)]; [|eauto].
      rewrite He, Hv in Herr. discriminate.
  - rewrite generateBlogContent_mounted. intros E. injection E as E.
    unfold is_errored.
    destruct Hphase as [-> | [-> | (_ & _ & He & _)]]; [reflexivity| |].
    { destruct (settled_cases backend) as (_ & -> & _). reflexivity. }
    rewrite He, (empty_drafts_loaded backend E). simpl.
    apply andb_false_r.
  - intros Hl s' Hstep.
    destruct (Hclicks s' Hl Hstep) as (w & e & Hr & Hin & ->).
    destruct e as [post|]; simpl.
    + split; [left; exists post; reflexivity|]. repeat split. exact Hl.
    + split; [now right|]. repeat split. exact Hl.
Qed.

(** C8, as the code has it. In every state the component can reach, the
    four cells select one view by the precedence loading, error, detail,
    list; they behave as one tagged state (loading, errored with its
    message, or ready with the collection and an optional selection): the
    render depends on the cells through the tag only, and once loading is
    over the cells are exactly the cells of the tag.  Whenever the render
    succeeds it is the view of the tag.  The loading message and the error
    banner always render, and the article of the selected post renders
    when its content is a string; the grid renders exactly when every
    published post is displayable, and otherwise React throws and no view
    is rendered. *)
Theorem one_view_chosen_per_reachable_state backend s :
  reachable backend s ->
  (isLoading (view s) = false -> cells_of (tag_of (view s)) = view s) /\
  render (cells_of (tag_of (view s))) = render (view s) /\
  (forall w,
      render (view s) = Ok w ->
      shows (tag_of (view s)) w /\
      (kind_of w = KLoading <-> isLoading (view s) = true) /\
      (kind_of w = KError <->
         isLoading (view s) = false /\ truthy (error (view s)) = true) /\
      (kind_of w = KDetail <->
         isLoading (view s) = false /\ truthy (error (view s)) = false /\
         truthy (selectedPost (view s)) = true) /\
      (kind_of w = KList <->
         isLoading (view s) = false /\ truthy (error (view s)) = false /\
         truthy (selectedPost (view s)) = false)) /\
  (isLoading (view s) = true -> render (view s) = Ok LoadingView) /\
  (is_errored (view s) = true ->
   render (view s) = Ok (ErrorBanner (error (view s)))) /\
  (is_ready (view s) = true ->
   truthy (selectedPost (view s)) = true ->
   (exists text,
       get_prop (selectedPost (view s)) "content" = Ok (JStr text)) ->
   exists title date image content,
     render (view s) = Ok (DetailView title date image content)) /\
  (is_ready (view s) = true ->
   truthy (selectedPost (view s)) = false ->
   ((exists cards, render (view s) = Ok (ListView cards)) <->
    Forall displayable (arr_items (posts (view s))))).
Proof.
  intros Hreach.
  destruct (reachable_well_formed _ _ Hreach) as (Hcells & Hobj & _).
  pose proof (reachable_selection_renders _ _ Hreach) as Hsel.
  split; [exact Hcells|].
  split.
  { destruct (isLoading (view s)) eqn:Hl.
    - unfold tag_of, render. rewrite Hl. reflexivity.
    - now rewrite Hcells. }
  unfold is_errored, is_ready, render, tag_of.
  destruct (isLoading (view s)) eqn:Hl; simpl.
  { split.
    - intros w H. injection H as <-. simpl. intuition discriminate.
    - repeat split; intros; discriminate || reflexivity. }
  destruct (truthy (error (view s))) eqn:He; simpl.
  { split.
    - intros w H. injection H as <-. simpl. intuition discriminate.
    - repeat split; intros; discriminate || reflexivity. }
  destruct (truthy (selectedPost (view s))) eqn:Ts.
  - split.
    + intros w H.
      destruct (render_detail_inv _ _ H) as (t & d & i & c & -> & Hshown).
      split; [exact Hshown|]. simpl. intuition discriminate.
    + repeat split; intros; try discriminate.
      destruct (Hsel eq_refl) as (t & d & i & c & Hd). eauto.
  - split.
    + intros w H.
      destruct (render_cards (arr_items (posts (view s)))) as [cards|] eqn:Hc;
        simpl in H; [|discriminate].
      injection H as <-. split; [eapply render_cards_posts; eauto|].
      simpl. intuition discriminate.
    + repeat split; intros; try discriminate.
      * destruct H1 as (cards & Hr).
        apply render_cards_displayable.
        destruct (render_cards (arr_items (posts (view s)))) as [cs|];
          simpl in Hr; [eauto | discriminate].
      * apply render_cards_displayable in H1. destruct H1 as (cards & ->).
        simpl. eauto.
Qed.

End ViewTheorems.

(** ** Requests and console of the facade *)

Section TrafficFacts.
Context {host : Host}.

(** Everything [generateImage] does: its value, the request it sends, the
    line it logs; nothing else moves. *)
Lemma generateImage_effects imagePrompt s :
  exists s',
    generateImage imagePrompt s = (Ok (image_value imagePrompt s), s') /\
    api s' = api s /\
    calls s' = (calls s ++ image_requests_of imagePrompt)%list /\
    console s' = (console s ++ image_log imagePrompt s)%list /\
    scrolls s' = scrolls s /\ next_ref s' = next_ref s /\ view s' = view s.
Proof.
  unfold generateImage, try_catch, image_try, bind, lift, generateContent,
    console_error, ret, image_value, image_requests_of, image_log.
  destruct (to_string imagePrompt) as [topic|]; simpl.
  - destruct (api s (length (calls s)) (image_request topic)) as [r|response];
      simpl.
    + eexists; split; [reflexivity | repeat split].
    + destruct (image_of_response response); simpl;
        (eexists; split; [reflexivity | simpl; repeat split]);
        now rewrite app_nil_r.
  - eexists; split; [reflexivity | simpl; repeat split].
    now rewrite app_nil_r.
Qed.

(** Everything [generateBlogContent] does. *)
Lemma generateBlogContent_effects s :
  exists s',
    generateBlogContent s =
      (Ok (settled_drafts (api s (length (calls s)) content_request)), s') /\
    api s' = api s /\
    calls s' = (calls s ++ [content_request])%list /\
    console s' =
      (console s ++
       match api s (length (calls s)) content_request with
       | Threw _ => ["Gemini API Content Error:"]
       | Returned response =>
           match rbind (get_prop response "text") json_parse with
           | Ok _ => []
           | Throw _ => ["Gemini API Content Error:"]
           end
       end)%list /\
    scrolls s' = scrolls s /\ next_ref s' = next_ref s /\ view s' = view s.
Proof.
  unfold generateBlogContent, try_catch, content_try, bind, lift,
    generateContent, console_error, ret.
  destruct (api s (length (calls s)) content_request) as [r|response]; simpl.
  - eexists; split; [reflexivity | repeat split].
  - destruct (get_prop response "text") as [text|]; simpl.
    + destruct (json_parse text); simpl;
        (eexists; split; [reflexivity | simpl; repeat split]);
        now rewrite app_nil_r.
    + eexists; split; [reflexivity | repeat split].
Qed.

(** Everything one callback of [map] does. *)
Lemma with_image_effects draft s :
  exists s',
    with_image draft s =
      (match get_prop draft "imagePrompt" with
       | Ok imagePrompt =>
           Ok (spread_with draft "imageUrl"
                 (JStr (image_value imagePrompt s)))
       | Throw e => Throw e
       end, s') /\
    api s' = api s /\
    calls s' = (calls s ++ draft_requests draft)%list /\
    scrolls s' = scrolls s /\ next_ref s' = next_ref s /\ view s' = view s.
Proof.
  unfold with_image, bind, lift, draft_requests.
  destruct (get_prop draft "imagePrompt") as [ip|e].
  - destruct (generateImage_effects ip s)
      as (s1 & Hrun & Ha1 & Hc1 & _ & Hs1 & Hn1 & Hv1).
    rewrite Hrun. unfold ret. exists s1. split; [reflexivity|].
    repeat split; assumption.
  - exists s. split; [reflexivity|]. rewrite app_nil_r. repeat split.
Qed.

(** The callbacks of [map] settle as [settle_all] says, and send the
    requests of the drafts in order. *)
Lemma map_async_settle drafts : forall s,
  exists s',
    map_async with_image drafts s
      = (Ok (settle_all (api s) (length (calls s)) drafts), s') /\
    api s' = api s /\
    calls s' = (calls s ++ flat_map draft_requests drafts)%list /\
    scrolls s' = scrolls s /\ next_ref s' = next_ref s /\ view s' = view s.
Proof.
  induction drafts as [|d rest IH]; intros s; simpl.
  - exists s. split; [reflexivity|]. rewrite app_nil_r. repeat split.
  - destruct (with_image_effects d s)
      as (s1 & Hrun & Ha1 & Hc1 & Hs1 & Hn1 & Hv1).
    rewrite Hrun.
    destruct (IH s1) as (s2 & Hrest & Ha2 & Hc2 & Hs2 & Hn2 & Hv2).
    rewrite Hrest. exists s2.
    split.
    + f_equal. rewrite Ha1, Hc1. unfold draft_requests.
      destruct (get_prop d "imagePrompt") as [ip|e].
      * unfold image_value, image_requests_of.
        destruct (to_string ip) as [topic|]; simpl.
        -- rewrite length_app. simpl. rewrite Nat.add_1_r. reflexivity.
        -- rewrite app_nil_r. reflexivity.
      * rewrite app_nil_r. reflexivity.
    + rewrite Hc2, Hc1, <- app_assoc.
      repeat split; congruence.
Qed.

End TrafficFacts.

(** ** The effect, in closed form *)

Section EffectFacts.
Context {host : Host}.

(** The state between the two updates of the effect, read off the answer to
    the text call and the answers to the image calls. *)
Lemma settled_exact backend :
  api (settled backend) = backend /\
  scrolls (settled backend) = 0 /\
  match settled_drafts (backend 0 content_request) with
  | JArr drafts =>
      calls (settled backend)
        = content_request :: flat_map draft_requests drafts /\
      view (settled backend) =
        match all_settled (settle_all backend 1 drafts) with
        | Ok values =>
            {| posts := {| arr_ref := 1; arr_items := values |};
               selectedPost := JNull; isLoading := true; error := JNull |}
        | Throw _ =>
            {| posts := {| arr_ref := 0; arr_items := [] |};
               selectedPost := JNull; isLoading := true;
               error := JStr failure_message |}
        end
  | _ =>
      calls (settled backend) = [content_request] /\
      view (settled backend) =
        {| posts := {| arr_ref := 0; arr_items := [] |};
           selectedPost := JNull; isLoading := true;
           error := JStr failure_message |}
  end.
Proof.
  unfold settled, try_catch, fetch_try, bind.
  destruct (generateBlogContent_effects (mounted backend))
    as (s1 & Hrun & Ha & Hc & _ & Hs & Hn & Hv).
  rewrite Hrun. simpl in Ha, Hc, Hs, Hn, Hv |- *.
  assert (Hother : forall g : val,
             (forall drafts, g <> JArr drafts) ->
             promise_all_map g with_image s1 = (Throw TypeError, s1)).
  { intros g Hg. destruct g; try reflexivity. now destruct (Hg items). }
  destruct (settled_drafts (backend 0 content_request))
    as [| |b|n|t|drafts|props] eqn:Hg;
    try (rewrite Hother by discriminate; simpl;
         rewrite Ha, Hs, Hc, Hv; repeat split).
  unfold promise_all_map, bind, lift.
  destruct (map_async_settle drafts s1)
    as (s2 & Hmap & Ha2 & Hc2 & Hs2 & Hn2 & Hv2).
  rewrite Hmap, Ha, Hc. simpl length.
  destruct (all_settled (settle_all backend 1 drafts)) as [values|e]; simpl;
    rewrite Ha2, Ha, Hs2, Hs, Hc2, Hc, Hv2, Hv, ?Hn2, ?Hn; repeat split.
Qed.

(** The state after the effect, in the same terms. *)
Lemma loaded_exact backend :
  api (loaded backend) = backend /\
  scrolls (loaded backend) = 0 /\
  match settled_drafts (backend 0 content_request) with
  | JArr drafts =>
      calls (loaded backend)
        = content_request :: flat_map draft_requests drafts /\
      view (loaded backend) =
        match all_settled (settle_all backend 1 drafts) with
        | Ok values =>
            cells_of (Ready {| arr_ref := 1; arr_items := values |} None)
        | Throw _ => cells_of (Errored (JStr failure_message))
        end
  | _ =>
      calls (loaded backend) = [content_request] /\
      view (loaded backend) = cells_of (Errored (JStr failure_message))
  end.
Proof.
  rewrite loaded_settled.
  destruct (settled_exact backend) as (Ha & Hs & Hrest).
  simpl. split; [exact Ha|]. split; [exact Hs|].
  destruct (settled_drafts (backend 0 content_request));
    destruct Hrest as (Hc & Hv); rewrite Hv; try (split; [exact Hc|reflexivity]).
  split; [exact Hc|].
  destruct (all_settled (settle_all backend 1 items)); reflexivity.
Qed.

End EffectFacts.

(** ** More on the image facade *)

Section ImageTheorems.
Context {host : Host}.

Lemma data_url_shape part url :
  data_url part = Ok url ->
  exists mime data, url = "data:" ++ mime ++ ";base64," ++ data.
Proof.
  unfold data_url.
  destruct (get_prop part "inlineData") as [d|]; simpl; [|discriminate].
  destruct (get_prop d "mimeType") as [m|]; simpl; [|discriminate].
  destruct (get_prop d "data") as [b|]; simpl; [|discriminate].
  destruct (to_string (if truthy m then m else JStr "image/jpeg")) as [mt|];
    simpl; [|discriminate].
  destruct (to_string b) as [bt|]; simpl; [|discriminate].
  intros H. injection H as <-. eauto.
Qed.

Lemma list_ascii_of_append (a b : string) :
  list_ascii_of_string (a ++ b)
  = (list_ascii_of_string a ++ list_ascii_of_string b)%list.
Proof. induction a as [|c a IH]; simpl; [reflexivity | now rewrite IH]. Qed.

(** A text that ends in [undefined] is not the placeholder, which ends in
    [=]. *)
Lemma undefined_is_not_fallback (a : string) :
  a ++ ";base64,undefined" <> genericFallbackUrl.
Proof.
  intros E. apply (f_equal list_ascii_of_string) in E.
  rewrite list_ascii_of_append in E.
  apply (f_equal (fun l => List.last l "000"%char)) in E.
  change (list_ascii_of_string ";base64,undefined")
    with (list_ascii_of_string ";base64,undefine" ++ ["d"%char])%list in E.
  rewrite app_assoc, last_last in E.
  vm_compute in E. discriminate E.
Qed.

Lemma fallback_shape :
  genericFallbackUrl =
  "data:" ++ "image/png" ++ ";base64," ++
  "iVBORw0KGgoAAAANSUhEUgAAAAEAAAABCAYAAAAfFcSJAAAADUlEQVR42mNk+M9QDwADagGA38qL+QAAAABJRU5ErkJggg==".
Proof. reflexivity. Qed.

(** What the inspection of the response returns when [part] is the first
    inline part. *)
Lemma image_of_part (response part inlineData m payload : val) mime text :
  first_inline_part response part ->
  get_prop part "inlineData" = Ok inlineData ->
  get_prop inlineData "mimeType" = Ok m ->
  get_prop inlineData "data" = Ok payload ->
  to_string (if truthy m then m else JStr "image/jpeg") = Ok mime ->
  to_string payload = Ok text ->
  image_of_response response = Ok ("data:" ++ mime ++ ";base64," ++ text).
Proof.
  intros Hfirst Hinline Hm Hdata Hmime Htext.
  pose proof (first_inline_part_found _ _ Hfirst) as Hfind.
  destruct Hfirst as (_ & _ & _ & _ & _ & d & _ & _ & _ & _ & _ & Hg & Ht).
  rewrite Hinline in Hg. injection Hg as <-.
  pose proof (truthy_property _ _ _ Hinline Ht) as Hpart.
  unfold image_of_response, part_and_inlineData, data_url.
  rewrite Hfind; simpl. rewrite Hpart, Hinline; simpl. rewrite Ht.
  rewrite Hm; simpl. rewrite Hdata; simpl. rewrite Hmime; simpl.
  rewrite Htext; simpl. reflexivity.
Qed.

Lemma generateImage_value imagePrompt s topic response :
  to_string imagePrompt = Ok topic ->
  api s (length (calls s)) (image_request topic) = Returned response ->
  fst (generateImage imagePrompt s) =
  Ok (match image_of_response response with
      | Ok url => url
      | Throw _ => genericFallbackUrl
      end).
Proof.
  intros Htopic Hapi.
  destruct (generateImage_effects imagePrompt s) as (s' & -> & _).
  unfold image_value. now rewrite Htopic, Hapi.
Qed.

Lemma generateImage_console imagePrompt s topic response :
  to_string imagePrompt = Ok topic ->
  api s (length (calls s)) (image_request topic) = Returned response ->
  console (snd (generateImage imagePrompt s)) =
  (console s ++ match image_of_response response with
                | Ok _ => []
                | Throw _ => ["Gemini Native Image Generation Error:"]
                end)%list.
Proof.
  intros Htopic Hapi.
  destruct (generateImage_effects imagePrompt s)
    as (s' & -> & _ & _ & Hlog & _).
  simpl. rewrite Hlog. unfold image_log. now rewrite Htopic, Hapi.
Qed.

(** X1. Whatever the prompt and the backend do, the string [generateImage]
    returns is a base64 data URL: [data:], a mime text, [;base64,] and a
    payload text.  It never returns the address of an external resource. *)
Theorem generateImage_returns_data_url (imagePrompt : val) (s : Sys) :
  exists mime data,
    fst (generateImage imagePrompt s)
      = Ok ("data:" ++ mime ++ ";base64," ++ data).
Proof.
  destruct (generateImage_effects imagePrompt s) as (s' & -> & _).
  simpl. unfold image_value.
  assert (Hfb : exists mime data,
             @Ok string genericFallbackUrl
             = Ok ("data:" ++ mime ++ ";base64," ++ data))
    by (do 2 eexists; rewrite fallback_shape; reflexivity).
  destruct (to_string imagePrompt) as [topic|]; [|exact Hfb].
  destruct (api s (length (calls s)) (image_request topic))
    as [reason|response]; simpl; [exact Hfb|].
  destruct (image_of_response response) as [url|] eqn:E; [|exact Hfb].
  destruct (image_of_response_cases _ _ E) as [-> | [_ [part Hp]]];
    [exact Hfb|].
  destruct (data_url_shape _ _ Hp) as (mime & data & ->).
  exists mime, data. reflexivity.
Qed.

(** X2. When the first inline part declares a truthy [mimeType], the URL
    carries that mime type and the text of the payload. *)
Theorem declared_mimeType_is_kept
    (imagePrompt : val) (s : Sys) (topic : string)
    (response part inlineData m payload : val) (mime text : string) :
  to_string imagePrompt = Ok topic ->
  api s (length (calls s)) (image_request topic) = Returned response ->
  first_inline_part response part ->
  get_prop part "inlineData" = Ok inlineData ->
  get_prop inlineData "mimeType" = Ok m ->
  truthy m = true ->
  to_string m = Ok mime ->
  get_prop inlineData "data" = Ok payload ->
  to_string payload = Ok text ->
  fst (generateImage imagePrompt s)
    = Ok ("data:" ++ mime ++ ";base64," ++ text).
Proof.
  intros Htopic Hapi Hfirst Hinline Hm Ht Hmime Hdata Htext.
  rewrite (generateImage_value _ _ _ _ Htopic Hapi).
  rewrite (image_of_part _ _ _ _ _ mime text Hfirst Hinline Hm Hdata);
    [reflexivity | now rewrite Ht | exact Htext].
Qed.

(** X3. A [mimeType] that is present but falsy (the empty string, [null],
    [false], a falsy number) is replaced by [image/jpeg], as a missing one
    is. *)
Theorem falsy_mimeType_defaults_to_jpeg
    (imagePrompt : val) (s : Sys) (topic : string)
    (response part inlineData m payload : val) (text : string) :
  to_string imagePrompt = Ok topic ->
  api s (length (calls s)) (image_request topic) = Returned response ->
  first_inline_part response part ->
  get_prop part "inlineData" = Ok inlineData ->
  get_prop inlineData "mimeType" = Ok m ->
  truthy m = false ->
  get_prop inlineData "data" = Ok payload ->
  to_string payload = Ok text ->
  fst (generateImage imagePrompt s)
    = Ok ("data:image/jpeg;base64," ++ text).
Proof.
  intros Htopic Hapi Hfirst Hinline Hm Ht Hdata Htext.
  rewrite (generateImage_value _ _ _ _ Htopic Hapi).
  rewrite (image_of_part _ _ _ _ _ "image/jpeg" text
             Hfirst Hinline Hm Hdata);
    [reflexivity | now rewrite Ht | exact Htext].
Qed.

(** X4. An inline part without [data] does not fall back to the
    placeholder: the URL is built all the same and its payload is the text
    [undefined]. *)
Theorem missing_payload_yields_undefined
    (imagePrompt : val) (s : Sys) (topic : string)
    (response part inlineData m : val) (mime : string) :
  to_string imagePrompt = Ok topic ->
  api s (length (calls s)) (image_request topic) = Returned response ->
  first_inline_part response part ->
  get_prop part "inlineData" = Ok inlineData ->
  get_prop inlineData "mimeType" = Ok m ->
  to_string (if truthy m then m else JStr "image/jpeg") = Ok mime ->
  lookup "data" (own_props inlineData) = None ->
  fst (generateImage imagePrompt s)
    = Ok ("data:" ++ mime ++ ";base64,undefined") /\
  fst (generateImage imagePrompt s) <> Ok genericFallbackUrl.
Proof.
  intros Htopic Hapi Hfirst Hinline Hm Hmime Hdata.
  assert (Hpayload : get_prop inlineData "data" = Ok JUndefined).
  { unfold get_prop. rewrite (get_prop_ok _ _ _ Hm), Hdata. reflexivity. }
  rewrite (generateImage_value _ _ _ _ Htopic Hapi).
  rewrite (image_of_part _ _ _ _ _ mime "undefined"
             Hfirst Hinline Hm Hpayload Hmime eq_refl).
  split; [reflexivity|].
  intros E.
  apply (undefined_is_not_fallback ("data:" ++ mime)).
  apply (f_equal (fun r => match r with
                           | Ok url => url
                           | Throw _ => EmptyString
                           end)) in E.
  exact E.
Qed.

End ImageTheorems.

(** ** Fallbacks, requests and the console *)

Section FallbackTheorems.
Context {host : Host}.

Lemma find_inlineData_plain parts :
  Forall plain_part parts -> find_inlineData parts = Ok JUndefined.
Proof.
  induction 1 as [|q parts (d & G & T) _ IH]; simpl; [reflexivity|].
  now rewrite G; simpl; rewrite T.
Qed.

Lemma find_inlineData_null before n after :
  Forall plain_part before -> nullish n = true ->
  find_inlineData (before ++ n :: after) = Throw TypeError.
Proof.
  intros Hb Hn.
  induction Hb as [|q before (d & G & T) _ IH]; simpl.
  - unfold get_prop. now rewrite Hn.
  - now rewrite G; simpl; rewrite T.
Qed.

Lemma find_image_part_of response parts :
  parts_of response parts -> find_image_part response = call_find parts.
Proof.
  intros (c & f & ct & H1 & H2 & H3 & H4).
  unfold find_image_part.
  rewrite H1; simpl. rewrite H2; simpl. rewrite H3; simpl.
  now rewrite H4.
Qed.

(** X5. A [null] (or [undefined]) part hides the image: when one stands
    before the first inline part, the callback of [find] throws, so the
    placeholder is returned and an error is logged, whatever follows it. *)
Theorem null_part_hides_image
    (imagePrompt : val) (s : Sys) (topic : string)
    (response n : val) (before after : list val) :
  to_string imagePrompt = Ok topic ->
  api s (length (calls s)) (image_request topic) = Returned response ->
  parts_of response (JArr (before ++ n :: after)) ->
  Forall plain_part before ->
  nullish n = true ->
  fst (generateImage imagePrompt s) = Ok genericFallbackUrl /\
  console (snd (generateImage imagePrompt s))
    = (console s ++ ["Gemini Native Image Generation Error:"])%list.
Proof.
  intros Htopic Hapi Hparts Hb Hn.
  assert (E : image_of_response response = Throw TypeError).
  { unfold image_of_response.
    rewrite (find_image_part_of _ _ Hparts). simpl.
    now rewrite (find_inlineData_null _ _ _ Hb Hn). }
  rewrite (generateImage_value _ _ _ _ Htopic Hapi).
  rewrite (generateImage_console _ _ _ _ Htopic Hapi).
  rewrite E. split; reflexivity.
Qed.

(** X6. [generateImage] sends exactly one request, and the console tells
    its two fallbacks apart: a call that throws and a response without
    candidates are logged by the [catch]; a response whose parts carry no
    inline data gives the placeholder without a line. *)
Theorem generateImage_logs_only_throws
    (imagePrompt : val) (s : Sys) (topic : string) :
  to_string imagePrompt = Ok topic ->
  calls (snd (generateImage imagePrompt s))
    = (calls s ++ [image_request topic])%list /\
  (forall reason,
      api s (length (calls s)) (image_request topic) = Threw reason ->
      fst (generateImage imagePrompt s) = Ok genericFallbackUrl /\
      console (snd (generateImage imagePrompt s))
        = (console s ++ ["Gemini Native Image Generation Error:"])%list) /\
  (forall response,
      api s (length (calls s)) (image_request topic) = Returned response ->
      get_prop response "candidates" = Ok (JArr []) ->
      fst (generateImage imagePrompt s) = Ok genericFallbackUrl /\
      console (snd (generateImage imagePrompt s))
        = (console s ++ ["Gemini Native Image Generation Error:"])%list) /\
  (forall response parts,
      api s (length (calls s)) (image_request topic) = Returned response ->
      parts_of response (JArr parts) ->
      Forall plain_part parts ->
      fst (generateImage imagePrompt s) = Ok genericFallbackUrl /\
      console (snd (generateImage imagePrompt s)) = console s).
Proof.
  intros Htopic.
  split.
  { destruct (generateImage_effects imagePrompt s)
      as (s' & -> & _ & Hc & _).
    simpl. rewrite Hc. unfold image_requests_of. now rewrite Htopic. }
  split; [|split].
  - intros reason Hapi.
    destruct (generateImage_effects imagePrompt s)
      as (s' & -> & _ & _ & Hlog & _).
    simpl. rewrite Hlog. unfold image_value, image_log.
    rewrite Htopic, Hapi. split; reflexivity.
  - intros response Hapi Hcand.
    assert (E : image_of_response response = Throw TypeError).
    { unfold image_of_response, find_image_part. now rewrite Hcand. }
    rewrite (generateImage_value _ _ _ _ Htopic Hapi).
    rewrite (generateImage_console _ _ _ _ Htopic Hapi).
    rewrite E. split; reflexivity.
  - intros response parts Hapi Hparts Hplain.
    assert (E : image_of_response response = Ok genericFallbackUrl).
    { unfold image_of_response.
      rewrite (find_image_part_of _ _ Hparts). simpl.
      now rewrite (find_inlineData_plain _ Hplain). }
    rewrite (generateImage_value _ _ _ _ Htopic Hapi).
    rewrite (generateImage_console _ _ _ _ Htopic Hapi).
    rewrite E. split; [reflexivity | apply app_nil_r].
Qed.

(** X7. [generateBlogContent] sends exactly one request, the same in every
    state, and writes to the console exactly when it degrades to the empty
    array: one line when the call throws or the text cannot be read or
    parsed, none when the text parses. *)
Theorem generateBlogContent_traffic (s : Sys) :
  calls (snd (generateBlogContent s)) = (calls s ++ [content_request])%list /\
  (forall reason,
      api s (length (calls s)) content_request = Threw reason ->
      console (snd (generateBlogContent s))
        = (console s ++ ["Gemini API Content Error:"])%list) /\
  (forall response e,
      api s (length (calls s)) content_request = Returned response ->
      rbind (get_prop response "text") json_parse = Throw e ->
      console (snd (generateBlogContent s))
        = (console s ++ ["Gemini API Content Error:"])%list) /\
  (forall response parsed,
      api s (length (calls s)) content_request = Returned response ->
      rbind (get_prop response "text") json_parse = Ok parsed ->
      console (snd (generateBlogContent s)) = console s).
Proof.
  destruct (generateBlogContent_effects s)
    as (s' & -> & _ & Hc & Hlog & _).
  simpl. split; [exact Hc|]. rewrite Hlog.
  split; [intros reason ->; reflexivity|].
  split; [intros response e -> ->; reflexivity|].
  intros response parsed -> ->. apply app_nil_r.
Qed.

(** X8. A draft without [imagePrompt] still costs a request: the prompt
    reads [undefined], and that word ends the text sent to the image
    model. *)
Theorem draft_without_imagePrompt (draft : val) (s : Sys) :
  nullish draft = false ->
  lookup "imagePrompt" (own_props draft) = None ->
  calls (snd (with_image draft s)) =
    (calls s ++
     [{| req_model := "gemini-2.5-flash-image";
         req_text := "Generate a photorealistic, abstract, 16:9 aspect ratio image for a tech blog related to: undefined";
         req_config := JObj [] |}])%list /\
  exists url,
    fst (with_image draft s) = Ok (spread_with draft "imageUrl" (JStr url)).
Proof.
  intros Hn Hmissing.
  assert (G : get_prop draft "imagePrompt" = Ok JUndefined).
  { unfold get_prop. now rewrite Hn, Hmissing. }
  destruct (with_image_effects draft s) as (s' & -> & _ & Hc & _).
  simpl. rewrite Hc. unfold draft_requests. rewrite G.
  split; [reflexivity | eauto].
Qed.

End FallbackTheorems.

(** ** More on the pipeline *)

Section PipelineExtras.
Context {host : Host}.

Lemma all_settled_nth rs : forall vs i v,
  all_settled rs = Ok vs ->
  nth_error rs i = Some (Ok v) ->
  nth_error vs i = Some v.
Proof.
  induction rs as [|r rs IH]; intros vs i v; simpl.
  - destruct i; discriminate.
  - destruct r as [v0|e]; [|discriminate].
    destruct (all_settled rs) as [vs0|] eqn:E; simpl; [|discriminate].
    intros H. injection H as <-.
    destruct i as [|i]; simpl.
    + intros H. injection H as <-. reflexivity.
    + apply IH. reflexivity.
Qed.

Lemma settle_all_nth backend drafts : forall k i d,
  nth_error drafts i = Some d ->
  nullish d = false ->
  exists imagePrompt,
    get_prop d "imagePrompt" = Ok imagePrompt /\
    nth_error (settle_all backend k drafts) i =
    Some (Ok (spread_with d "imageUrl"
                (JStr match to_string imagePrompt with
                      | Ok topic =>
                          settled_url
                            (backend
                               (k + length (flat_map draft_requests
                                              (firstn i drafts)))
                               (image_request topic))
                      | Throw _ => genericFallbackUrl
                      end))).
Proof.
  induction drafts as [|d0 rest IH]; intros k i d Hnth Hn.
  - destruct i; discriminate.
  - destruct i as [|i]; simpl in Hnth.
    + injection Hnth as ->.
      destruct (get_prop d "imagePrompt") as [ip|e] eqn:G.
      * exists ip. split; [reflexivity|]. simpl. rewrite G, Nat.add_0_r.
        destruct (to_string ip); reflexivity.
      * apply get_prop_throw in G. congruence.
    + simpl firstn. simpl flat_map. simpl settle_all.
      unfold draft_requests at 1.
      destruct (get_prop d0 "imagePrompt") as [ip0|e0].
      * unfold image_requests_of.
        destruct (to_string ip0) as [t0|] eqn:T0.
        -- destruct (IH (S k) i d Hnth Hn) as (ip & G & Hr).
           exists ip. split; [exact G|]. simpl.
           rewrite Hr. rewrite Nat.add_succ_r. reflexivity.
        -- destruct (IH k i d Hnth Hn) as (ip & G & Hr).
           exists ip. split; [exact G|]. simpl. exact Hr.
      * destruct (IH k i d Hnth Hn) as (ip & G & Hr).
        exists ip. split; [exact G|]. simpl. exact Hr.
Qed.

Lemma draft_requests_nth drafts : forall i d imagePrompt topic,
  nth_error drafts i = Some d ->
  get_prop d "imagePrompt" = Ok imagePrompt ->
  to_string imagePrompt = Ok topic ->
  nth_error (flat_map draft_requests drafts)
    (length (flat_map draft_requests (firstn i drafts)))
  = Some (image_request topic).
Proof.
  induction drafts as [|d0 rest IH]; intros i d ip topic Hnth G T.
  - destruct i; discriminate.
  - destruct i as [|i]; simpl in Hnth.
    + injection Hnth as ->. simpl.
      unfold draft_requests, image_requests_of. rewrite G, T. reflexivity.
    + simpl. rewrite length_app, nth_error_app2 by lia.
      replace (length (draft_requests d0) +
               length (flat_map draft_requests (firstn i rest)) -
               length (draft_requests d0))
        with (length (flat_map draft_requests (firstn i rest))) by lia.
      eapply IH; eauto.
Qed.

Lemma Forall2_nth_left {A B} (R : A -> B -> Prop) l l' :
  Forall2 R l l' ->
  forall i a, nth_error l i = Some a ->
  exists b, nth_error l' i = Some b /\ R a b.
Proof.
  induction 1 as [|x y l l' Hxy _ IH]; intros i a Hnth.
  - destruct i; discriminate.
  - destruct i as [|i]; simpl in *.
    + injection Hnth as <-. eauto.
    + eauto.
Qed.

Lemma generateBlogContent_array backend drafts :
  fst (generateBlogContent (mounted backend)) = Ok (JArr drafts) ->
  settled_drafts (backend 0 content_request) = JArr drafts.
Proof.
  rewrite generateBlogContent_mounted. intros H. now injection H.
Qed.

(** X9. The effect sends one text request, then one image request for each
    draft whose [imagePrompt] has a text form, in the order of the drafts,
    also when a [null] draft makes the run fail; when the facade's value is
    not an array it sends the text request only.  After the load no request
    is ever sent again. *)
Theorem pipeline_requests backend :
  (forall drafts,
      fst (generateBlogContent (mounted backend)) = Ok (JArr drafts) ->
      calls (loaded backend)
        = content_request :: flat_map draft_requests drafts) /\
  (forall drafts topics,
      fst (generateBlogContent (mounted backend)) = Ok (JArr drafts) ->
      Forall2 (fun draft topic =>
                 get_prop draft "imagePrompt" = Ok (JStr topic))
        drafts topics ->
      calls (loaded backend) = content_request :: map image_request topics) /\
  ((forall drafts,
       fst (generateBlogContent (mounted backend)) <> Ok (JArr drafts)) ->
   calls (loaded backend) = [content_request]) /\
  (forall s,
      reachable backend s -> isLoading (view s) = false ->
      calls s = calls (loaded backend)).
Proof.
  destruct (loaded_exact backend) as (_ & _ & Hexact).
  assert (H1 : forall drafts,
             fst (generateBlogContent (mounted backend)) = Ok (JArr drafts) ->
             calls (loaded backend)
               = content_request :: flat_map draft_requests drafts).
  { intros drafts Hg. apply generateBlogContent_array in Hg.
    rewrite Hg in Hexact. apply Hexact. }
  split; [exact H1|]. split; [|split].
  - intros drafts topics Hg Htopics. rewrite (H1 drafts Hg). f_equal.
    clear Hg H1 Hexact.
    induction Htopics as [|d t ds ts G _ IH]; simpl; [reflexivity|].
    rewrite IH. unfold draft_requests. rewrite G. reflexivity.
  - intros Hnot. rewrite generateBlogContent_mounted in Hnot.
    destruct (settled_drafts (backend 0 content_request)) as [| | | | |ds|];
      try apply Hexact.
    now destruct (Hnot ds).
  - intros s Hreach Hl.
    destruct (reachable_phase _ _ Hreach) as [-> | [-> | (_ & _ & _ & Hc & _)]];
      [discriminate | | exact Hc].
    destruct (settled_cases backend) as (_ & Hl' & _).
    rewrite Hl' in Hl. discriminate.
Qed.

(** X10. On a successful run every post carries the image that was made for
    its own draft: the post at index [i] is the draft at index [i] with, as
    [imageUrl], what [generateImage] makes of the answer to the request at
    position [k] of the requests sent, and that request is the one built
    from this draft's [imagePrompt]. *)
Theorem posts_carry_their_own_image backend drafts i draft :
  fst (generateBlogContent (mounted backend)) = Ok (JArr drafts) ->
  is_ok (fst (fetch_try (mounted backend))) = true ->
  nth_error drafts i = Some draft ->
  exists imagePrompt,
    get_prop draft "imagePrompt" = Ok imagePrompt /\
    nth_error (arr_items (posts (view (loaded backend)))) i =
    Some (spread_with draft "imageUrl"
            (JStr match to_string imagePrompt with
                  | Ok topic =>
                      settled_url
                        (backend
                           (1 + length (flat_map draft_requests
                                          (firstn i drafts)))
                           (image_request topic))
                  | Throw _ => genericFallbackUrl
                  end)) /\
    (forall topic,
        to_string imagePrompt = Ok topic ->
        nth_error (calls (loaded backend))
          (1 + length (flat_map draft_requests (firstn i drafts)))
        = Some (image_request topic)).
Proof.
  intros Hg Hok Hnth.
  apply generateBlogContent_array in Hg.
  destruct (loaded_exact backend) as (_ & _ & Hexact).
  rewrite Hg in Hexact. destruct Hexact as (Hcalls & Hview).
  destruct (loaded_cases backend)
    as [(drafts' & values & Hd & Hposts & _ & Hv) | (e & He & _)];
    [|rewrite He in Hok; discriminate].
  rewrite Hg in Hd. injection Hd as <-.
  destruct (Forall2_nth_left _ _ _ Hposts i draft Hnth)
    as (p & _ & Hn & _).
  destruct (settle_all_nth backend drafts 1 i draft Hnth Hn)
    as (ip & G & Hr).
  exists ip. split; [exact G|]. split.
  - destruct (all_settled (settle_all backend 1 drafts)) as [vs|] eqn:Hall.
    + rewrite Hview. simpl. eapply all_settled_nth; eauto.
    + rewrite Hview in Hv. discriminate Hv.
  - intros topic T. rewrite Hcalls. simpl.
    eapply draft_requests_nth; eauto.
Qed.

(** X11. The effect ends errored exactly when the facade's value is not an
    array of values other than [null] and [undefined]: one [null] element
    is enough to lose every post, while numbers, strings and objects of any
    shape pass. *)
Theorem errored_iff_not_an_array_of_values backend :
  is_errored (view (loaded backend)) = true <->
  ~ (exists drafts,
        fst (generateBlogContent (mounted backend)) = Ok (JArr drafts) /\
        Forall (fun d => nullish d = false) drafts).
Proof.
  rewrite generateBlogContent_mounted.
  destruct (loaded_cases backend)
    as [(drafts & values & Hd & Hposts & _ & ->) | (e & _ & -> & Hnull)].
  - split; [discriminate|]. intros Hnot. exfalso. apply Hnot.
    exists drafts. split; [now rewrite Hd|].
    eapply post_of_not_nullish; eauto.
  - split; [|reflexivity]. intros _ (drafts & Hd & Hall).
    injection Hd as Hd. specialize (Hnull drafts Hd).
    apply Exists_exists in Hnull. destruct Hnull as (d & Hin & Hn).
    rewrite Forall_forall in Hall. specialize (Hall d Hin). congruence.
Qed.

(** X12. The error banner never reports a failed text call: when the effect
    ends errored, the call returned a response whose text was parsed, and
    the parsed value, not the empty array, is what the facade returned. *)
Theorem errored_means_backend_answered backend :
  is_errored (view (loaded backend)) = true ->
  exists response parsed,
    backend 0 content_request = Returned response /\
    rbind (get_prop response "text") json_parse = Ok parsed /\
    fst (generateBlogContent (mounted backend)) = Ok parsed /\
    parsed <> JArr [].
Proof.
  intros Herr. rewrite generateBlogContent_mounted.
  assert (Hne : settled_drafts (backend 0 content_request) <> JArr []).
  { intros E. rewrite (empty_drafts_loaded backend E) in Herr.
    discriminate Herr. }
  unfold settled_drafts in *.
  destruct (backend 0 content_request) as [reason|response];
    [now destruct Hne|].
  destruct (rbind (get_prop response "text") json_parse) as [parsed|] eqn:E;
    [|now destruct Hne].
  exists response, parsed. repeat split; auto.
Qed.

(** X13. Whether the load succeeds, how many posts it publishes and every
    property of a post other than [imageUrl] depend on the answer to the
    text call alone: no answer to an image call can change them. *)
Theorem load_independent_of_images backend backend' :
  backend 0 content_request = backend' 0 content_request ->
  error (view (loaded backend)) = error (view (loaded backend')) /\
  length (arr_items (posts (view (loaded backend))))
    = length (arr_items (posts (view (loaded backend')))) /\
  (forall i post post',
      nth_error (arr_items (posts (view (loaded backend)))) i = Some post ->
      nth_error (arr_items (posts (view (loaded backend')))) i = Some post' ->
      forall k, k <> "imageUrl" -> get_prop post k = get_prop post' k).
Proof.
  intros Hsame.
  destruct (loaded_cases backend)
    as [(ds & vs & Hd & Hp & _ & ->) | (e & _ & -> & Hnull)];
    destruct (loaded_cases backend')
      as [(ds' & vs' & Hd' & Hp' & _ & ->) | (e' & _ & -> & Hnull')];
    rewrite <- Hsame in *.
  - rewrite Hd in Hd'. injection Hd' as <-. simpl.
    split; [reflexivity|].
    split; [rewrite <- (Forall2_length Hp), <- (Forall2_length Hp');
            reflexivity|].
    intros i post post' Hi Hi' k Hk.
    assert (Hflip : Forall2 (fun p d => post_of d p) vs ds)
      by (clear - Hp; induction Hp; constructor; auto).
    destruct (Forall2_nth_left _ _ _ Hflip i post Hi)
      as (d & Hdi & Hn & url & _ & ->).
    destruct (Forall2_nth_left _ _ _ Hp' i d Hdi)
      as (post'' & Hi'' & _ & url' & _ & ->).
    rewrite Hi' in Hi''. injection Hi'' as ->.
    now rewrite !spread_with_other.
  - exfalso. specialize (Hnull' ds Hd).
    apply Exists_exists in Hnull'. destruct Hnull' as (d & Hin & Hn).
    pose proof (post_of_not_nullish _ _ Hp) as Hall.
    rewrite Forall_forall in Hall. specialize (Hall d Hin). congruence.
  - exfalso. specialize (Hnull ds' Hd').
    apply Exists_exists in Hnull. destruct Hnull as (d & Hin & Hn).
    pose proof (post_of_not_nullish _ _ Hp') as Hall.
    rewrite Forall_forall in Hall. specialize (Hall d Hin). congruence.
  - simpl. repeat split. intros i post post' Hi. destruct i; discriminate.
Qed.

End PipelineExtras.

(** ** More on the view *)

Section ViewExtras.
Context {host : Host}.

(** Between the two updates of the effect the posts cell already holds what
    it holds after the load. *)
Lemma settled_posts backend :
  posts (view (settled backend)) = posts (view (loaded backend)).
Proof. rewrite loaded_settled. reflexivity. Qed.

(** The posts cell after the load. *)
Lemma loaded_posts backend :
  posts (view (loaded backend)) = {| arr_ref := 0; arr_items := [] |} \/
  exists drafts values,
    fst (generateBlogContent (mounted backend)) = Ok (JArr drafts) /\
    Forall2 post_of drafts values /\
    posts (view (loaded backend)) = {| arr_ref := 1; arr_items := values |}.
Proof.
  destruct (loaded_cases backend)
    as [(drafts & values & Hd & Hposts & _ & ->) | (e & _ & -> & _)].
  - right. exists drafts, values.
    rewrite generateBlogContent_mounted, Hd. repeat split. exact Hposts.
  - now left.
Qed.

Lemma reachable_posts backend s :
  reachable backend s ->
  posts (view s) = {| arr_ref := 0; arr_items := [] |} \/
  posts (view s) = posts (view (loaded backend)).
Proof.
  intros Hreach.
  destruct (reachable_phase _ _ Hreach) as [-> | [-> | (_ & Hp & _)]].
  - now left.
  - right. apply settled_posts.
  - now right.
Qed.

(** Every post of a reachable state has the non-empty [imageUrl] the
    pipeline gave it. *)
Lemma reachable_posts_have_image backend s :
  reachable backend s ->
  Forall (fun p => exists url,
            url <> EmptyString /\ get_prop p "imageUrl" = Ok (JStr url))
    (arr_items (posts (view s))).
Proof.
  intros Hreach.
  destruct (reachable_posts _ _ Hreach) as [-> | ->]; [constructor|].
  destruct (loaded_posts backend)
    as [-> | (drafts & values & _ & Hposts & ->)]; [constructor|].
  simpl. clear - Hposts.
  induction Hposts as [|d p ds ps (_ & url & Hurl & ->) _ IH];
    constructor; [|exact IH].
  exists url. split; [exact Hurl | apply spread_with_same].
Qed.

(** X14. Publication is all or nothing: in every state the component can
    reach, the posts cell holds the initial empty array or the complete
    collection, one post for each draft, in the array the effect created;
    no part of a collection is ever exposed and a published collection is
    never replaced. *)
Theorem publication_is_all_or_nothing backend s :
  reachable backend s ->
  posts (view s) = {| arr_ref := 0; arr_items := [] |} \/
  (exists drafts,
      fst (generateBlogContent (mounted backend)) = Ok (JArr drafts) /\
      posts (view s) = posts (view (loaded backend)) /\
      arr_ref (posts (view s)) = 1 /\
      length (arr_items (posts (view s))) = length drafts /\
      Forall2 post_of drafts (arr_items (posts (view s)))).
Proof.
  intros Hreach.
  destruct (reachable_posts _ _ Hreach) as [H0 | Hl]; [now left|].
  rewrite Hl.
  destruct (loaded_posts backend)
    as [H0 | (drafts & values & Hg & Hposts & Hv)]; [now left|].
  right. exists drafts. rewrite Hv. simpl.
  repeat split; auto. symmetry. eapply Forall2_length; eauto.
Qed.

Lemma render_image_shown (x : val) img url :
  render_image x = Ok img ->
  get_prop x "imageUrl" = Ok (JStr url) -> url <> EmptyString ->
  img = Some (JStr url).
Proof.
  intros Hi G Hne. unfold render_image in Hi. rewrite G in Hi. simpl in Hi.
  destruct url as [|a url]; [now destruct Hne|]. simpl in Hi.
  destruct (get_prop x "title") as [t|]; simpl in Hi; [|discriminate].
  destruct (attribute t); simpl in Hi; [|discriminate].
  now injection Hi.
Qed.

Lemma render_card_fields post c :
  render_card post = Ok c ->
  card_post c = post /\
  get_prop post "id" = Ok (card_key c) /\
  render_image post = Ok (card_image c) /\
  get_prop post "title" = Ok (card_title c) /\
  get_prop post "date" = Ok (card_date c) /\
  get_prop post "summary" = Ok (card_summary c).
Proof.
  intros H.
  destruct (render_card_inv _ _ H)
    as (H1 & H2 & _ & H3 & H4 & _ & H5 & _ & H6 & _).
  repeat split; assumption.
Qed.

(** X15. The grid shows the collection as it is: one card for each post, in
    order; the key, title, date and summary of a card are the [id],
    [title], [date] and [summary] of its post, and every card has an image,
    the non-empty [imageUrl] of its post. *)
Theorem cards_show_posts backend s cards :
  reachable backend s ->
  render (view s) = Ok (ListView cards) ->
  map card_post cards = arr_items (posts (view s)) /\
  Forall (fun c =>
            get_prop (card_post c) "id" = Ok (card_key c) /\
            get_prop (card_post c) "title" = Ok (card_title c) /\
            get_prop (card_post c) "date" = Ok (card_date c) /\
            get_prop (card_post c) "summary" = Ok (card_summary c) /\
            exists url,
              url <> EmptyString /\
              get_prop (card_post c) "imageUrl" = Ok (JStr url) /\
              card_image c = Some (JStr url)) cards.
Proof.
  intros Hreach Hr.
  destruct (render_list_inv _ _ Hr) as (_ & _ & _ & Hcards).
  split; [eapply render_cards_posts; eauto|].
  apply Forall_forall. intros c Hin.
  destruct (render_cards_each _ _ _ Hcards Hin) as (p & Hp & Hc).
  destruct (render_card_fields _ _ Hc) as (<- & Hid & Hi & Ht & Hd & Hs).
  repeat (split; [assumption|]).
  assert (Himg : exists url, url <> EmptyString /\
                             get_prop (card_post c) "imageUrl" = Ok (JStr url)).
  { pose proof (reachable_posts_have_image _ _ Hreach) as Hall.
    rewrite Forall_forall in Hall. now apply Hall. }
  destruct Himg as (url & Hurl & G).
  exists url. split; [exact Hurl|]. split; [exact G|].
  exact (render_image_shown _ _ _ Hi G Hurl).
Qed.

(** X16. The button of a card opens that card's post: pressing it is a
    transition of the component, it scrolls the window to the top once, and
    the detail view then shows the title, the date and the image the card
    showed, with the [content] of the same post. *)
Theorem card_opens_its_own_post backend s cards c :
  reachable backend s ->
  render (view s) = Ok (ListView cards) ->
  In c cards ->
  step s (snd (handleReadMore (card_post c) s)) /\
  scrolls (snd (handleReadMore (card_post c) s)) = S (scrolls s) /\
  exists content,
    get_prop (card_post c) "content" = Ok content /\
    render (view (snd (handleReadMore (card_post c) s)))
      = Ok (DetailView (card_title c) (card_date c) (card_image c) content).
Proof.
  intros Hreach Hr Hin.
  destruct (render_list_inv _ _ Hr) as (Hl & He & _ & Hcards).
  split.
  { apply (step_click s (ListView cards) (ReadMore (card_post c)));
      [exact Hr | simpl; apply in_map_iff; exists c; now split]. }
  split; [reflexivity|].
  destruct (render_cards_each _ _ _ Hcards Hin) as (p & Hp & Hc).
  pose proof (render_card_post _ _ Hc) as Hcp. rewrite <- Hcp in Hc, Hp.
  destruct (reachable_well_formed _ _ Hreach) as (_ & Hobj & _).
  rewrite Forall_forall in Hobj. destruct (Hobj _ Hp) as [props Eq].
  assert (Htruthy : truthy (card_post c) = true) by now rewrite Eq.
  destruct (render_detail_of_card _ _ Hc) as (content & G & Hd).
  exists content. split; [exact G|].
  unfold render. simpl. rewrite Hl, He, Htruthy. exact Hd.
Qed.

End ViewExtras.

(** ** Runs on the concrete host *)

#[local] Existing Instance demo_host.

Example to_string_nested :
  to_string (JArr [JNum 3%Z; JNull; JStr "a"; JArr [JBool true; JNum (-4)%Z]])
  = Ok "3,,a,true,-4".
Proof. reflexivity. Qed.

Example to_string_own_toString :
  to_string (JObj [("toString", JStr "mine")]) = Throw TypeError.
Proof. reflexivity. Qed.

Example get_prop_examples :
  get_prop (JStr "abc") "1" = Ok (JStr "b") /\
  get_prop (JArr [JNull; JBool true]) "1" = Ok (JBool true) /\
  get_prop (JObj [("id", JStr "p1")]) "title" = Ok JUndefined /\
  get_prop JNull "id" = Throw TypeError.
Proof. repeat split. Qed.

(** A [null] part before the image makes the callback of [find] throw. *)
Example find_image_part_null_part :
  find_inlineData [JNull; JObj [("inlineData", JObj [("data", JStr "QUJD")])]]
  = Throw TypeError.
Proof. reflexivity. Qed.

(** A key without string conversion and an object child stop the card; an
    array of texts is an accepted child. *)
Example render_card_failures :
  render_card (JObj [("id", JObj [("toString", JNum 1%Z)])])
    = Throw TypeError /\
  render_card (JObj [("id", JStr "p1"); ("summary", JObj [])])
    = Throw (RenderError "Objects are not valid as a React child") /\
  is_ok (render_card (JObj [("id", JStr "p1");
                            ("title", JArr [JStr "a"; JStr "b"])])) = true.
Proof. repeat split. Qed.

Example offline_run :
  view (loaded backend_offline) =
    cells_of (Ready {| arr_ref := 1; arr_items := [] |} None) /\
  console (loaded backend_offline) = ["Gemini API Content Error:"] /\
  length (calls (loaded backend_offline)) = 1.
Proof. repeat split. Qed.

Example empty_id_run :
  arr_items (posts (view (loaded backend_empty_id))) = [empty_id_post] /\
  map req_model (calls (loaded backend_empty_id))
    = ["gemini-2.5-flash"; "gemini-2.5-flash-image"] /\
  parse_fragment empty_id_text = Some (JArr [empty_id_draft]).
Proof. repeat split. Qed.

Lemma loaded_reachable backend : reachable backend (loaded backend).
Proof.
  eapply reach_step; [|apply step_finish].
  eapply reach_step; [apply reach_mounted | apply step_settle].
Defined.


(** With the backend unreachable the image is the placeholder. *)
Lemma generateImage_total_witness :
  exists url s',
    generateImage (JStr "robots writing code") (mounted backend_offline)
      = (Ok url, s') /\
    url = genericFallbackUrl.
Proof.
  destruct (generateImage_total (JStr "robots writing code")
              (mounted backend_offline)) as (url & s' & Hrun & _ & Hfallback).
  exists url, s'. split; [exact Hrun|].
  apply Hfallback. intros topic response _ Hcall. discriminate Hcall.
Defined.

Lemma untyped_image_first_part :
  first_inline_part untyped_image_response
    (JObj [("inlineData", JObj [("data", JStr "QUJD")])]).
Proof.
  eexists; eexists; eexists.
  exists [JObj [("text", JStr "Here is the picture.")]], [].
  eexists.
  repeat (split; [reflexivity|]).
  split; [|split; reflexivity].
  constructor; [|constructor].
  eexists. split; reflexivity.
Defined.

(** An inline part that carries only [data] yields a JPEG data URL. *)
Lemma missing_mimeType_defaults_to_jpeg_witness :
  fst (generateImage (JStr "robots writing code")
         (mounted backend_untyped_image))
  = Ok "data:image/jpeg;base64,QUJD".
Proof.
  apply (missing_mimeType_defaults_to_jpeg
           (JStr "robots writing code") (mounted backend_untyped_image)
           "robots writing code" untyped_image_response
           (JObj [("inlineData", JObj [("data", JStr "QUJD")])])
           (JObj [("data", JStr "QUJD")]) (JStr "QUJD") "QUJD");
    try reflexivity.
  apply untyped_image_first_part.
Defined.

(** With the backend unreachable the facade returns the empty array and the
    view becomes ready with no post. *)
Lemma generateBlogContent_degrades_on_throw_witness :
  fst (generateBlogContent (mounted backend_offline)) = Ok (JArr []) /\
  is_ready (view (loaded backend_offline)) = true /\
  arr_items (posts (view (loaded backend_offline))) = [].
Proof.
  destruct (generateBlogContent_degrades_on_throw (mounted backend_offline))
    as (_ & Hthrow & _ & _ & Hcaller).
  split; [apply (Hthrow "offline"); reflexivity|].
  apply (Hcaller backend_offline); [reflexivity|].
  apply (Hthrow "offline"); reflexivity.
Defined.

(** C3, as stated, fails: the text of an empty object parses, is not of the
    structure asked for, and is returned as it is instead of an empty
    sequence; the effect then ends errored. *)
Lemma unexpected_structure_is_returned :
  rbind (get_prop (JObj [("text", JStr "{}")]) "text") json_parse
    = Ok (JObj []) /\
  matches_schema (JObj []) = false /\
  fst (generateBlogContent (mounted backend_braces)) = Ok (JObj []) /\
  fst (generateBlogContent (mounted backend_braces)) <> Ok (JArr []) /\
  is_errored (view (loaded backend_braces)) = true.
Proof.
  repeat split; try reflexivity. discriminate.
Qed.

Lemma empty_drafts_reach_ready_witness :
  fst (generateBlogContent (mounted backend_offline)) = Ok (JArr []) /\
  isLoading (view (loaded backend_offline)) = false /\
  error (view (loaded backend_offline)) = JNull /\
  arr_items (posts (view (loaded backend_offline))) = [] /\
  render (view (loaded backend_offline)) = Ok (ListView []).
Proof.
  split; [reflexivity|].
  destruct (empty_drafts_reach_ready backend_offline eq_refl)
    as (_ & Hl & He & _ & Hp & _ & _ & Hr).
  repeat split; assumption.
Defined.

(** Opening the only post and going back. *)
Lemma select_then_clear_restores_list_witness :
  reachable backend_empty_id (loaded backend_empty_id) /\
  isLoading (view (loaded backend_empty_id)) = false /\
  tag_of (view (snd (handleBack
                       (snd (handleReadMore empty_id_post
                               (loaded backend_empty_id))))))
    = Ready (posts (view (loaded backend_empty_id))) None /\
  step (loaded backend_empty_id)
       (snd (handleReadMore empty_id_post (loaded backend_empty_id))) /\
  step (snd (handleReadMore empty_id_post (loaded backend_empty_id)))
       (snd (handleBack
               (snd (handleReadMore empty_id_post
                       (loaded backend_empty_id))))) /\
  view (snd (handleBack
               (snd (handleReadMore empty_id_post
                       (loaded backend_empty_id)))))
    = view (loaded backend_empty_id) /\
  render (view (snd (handleBack
                       (snd (handleReadMore empty_id_post
                               (loaded backend_empty_id))))))
    = Ok (ListView [empty_id_card]).
Proof.
  split; [apply loaded_reachable|]. split; [reflexivity|].
  destruct (select_then_clear_restores_list backend_empty_id
              (loaded backend_empty_id) empty_id_post
              (loaded_reachable backend_empty_id) eq_refl)
    as (_ & _ & _ & _ & _ & _ & _ & Hlist & Hsteps).
  split; [apply Hlist; reflexivity|].
  apply (Hsteps [empty_id_card]); [reflexivity | left; reflexivity].
Defined.

(** The selection of a reachable state is [null] or a post. *)
Lemma handleReadMore_accepts_any_value_witness :
  selectedPost (view (snd (handleReadMore stranger (loaded backend_offline))))
    = stranger /\
  (selectedPost (view (loaded backend_offline)) = JNull \/
   In (selectedPost (view (loaded backend_offline)))
      (arr_items (posts (view (loaded backend_offline))))).
Proof.
  destruct (handleReadMore_accepts_any_value stranger (loaded backend_offline))
    as (_ & Hsel & _ & _ & _ & Hreach).
  split; [exact Hsel|].
  apply (Hreach backend_offline). apply loaded_reachable.
Defined.

(** C6, as stated, fails: a value that is not in the collection is not
    turned away, it becomes the selection. *)
Lemma handleReadMore_accepts_stranger :
  ~ In stranger (arr_items (posts (view (loaded backend_offline)))) /\
  fst (handleReadMore stranger (loaded backend_offline)) = Ok tt /\
  selectedPost (view (snd (handleReadMore stranger (loaded backend_offline))))
    = stranger /\
  ~ rejects stranger (loaded backend_offline).
Proof.
  split; [intros []|]. split; [reflexivity|]. split; [reflexivity|].
  intros [[e He] | Hsame]; discriminate.
Qed.

(** The errored state after a response of the wrong shape: nothing can
    happen any more, and the [try] block did throw. *)
Lemma errored_terminal_and_selection_only_witness :
  reachable backend_braces (loaded backend_braces) /\
  is_errored (view (loaded backend_braces)) = true /\
  (forall s', ~ step (loaded backend_braces) s') /\
  exists e, fst (fetch_try (mounted backend_braces)) = Throw e.
Proof.
  split; [apply loaded_reachable|]. split; [reflexivity|].
  destruct (errored_terminal_and_selection_only backend_braces
              (loaded backend_braces) (loaded_reachable backend_braces))
    as (Herrored & _ & _).
  apply Herrored. reflexivity.
Defined.

Lemma one_view_chosen_per_reachable_state_witness :
  reachable backend_empty_id (loaded backend_empty_id) /\
  cells_of (tag_of (view (loaded backend_empty_id)))
    = view (loaded backend_empty_id) /\
  Forall displayable (arr_items (posts (view (loaded backend_empty_id)))) /\
  shows (tag_of (view (loaded backend_empty_id))) (ListView [empty_id_card]).
Proof.
  split; [apply loaded_reachable|].
  destruct (one_view_chosen_per_reachable_state backend_empty_id
              (loaded backend_empty_id) (loaded_reachable backend_empty_id))
    as (Hcells & _ & Hshows & _ & _ & _ & Hgrid).
  split; [apply Hcells; reflexivity|].
  split.
  - apply (Hgrid eq_refl eq_refl). exists [empty_id_card]. reflexivity.
  - apply (Hshows (ListView [empty_id_card])). reflexivity.
Defined.

(** C8, as stated, fails: a draft whose [title] is an object is published,
    the state is ready with no selection, and React refuses the card: the
    render throws and none of the four views is rendered. *)
Lemma grid_throws_on_object_title :
  reachable backend_object_title (loaded backend_object_title) /\
  is_ready (view (loaded backend_object_title)) = true /\
  arr_items (posts (view (loaded backend_object_title)))
    = [spread_with object_title_draft "imageUrl" (JStr genericFallbackUrl)] /\
  render (view (loaded backend_object_title))
    = Throw (RenderError "Objects are not valid as a React child") /\
  ~ (exists w, render (view (loaded backend_object_title)) = Ok w).
Proof.
  split; [apply loaded_reachable|].
  repeat (split; [reflexivity|]).
  intros (w & H). discriminate H.
Qed.

Lemma post_id_is_draft_id_witness :
  is_ok (fst (fetch_try (mounted backend_empty_id))) = true /\
  render (view (loaded backend_empty_id)) = Ok (ListView [empty_id_card]) /\
  Forall2 (fun draft c => get_prop draft "id" = Ok (card_key c) /\
                          get_prop (card_post c) "id" = Ok (card_key c))
    [empty_id_draft] [empty_id_card].
Proof.
  split; [reflexivity|]. split; [reflexivity|].
  destruct (post_id_is_draft_id backend_empty_id eq_refl)
    as (drafts & Hg & _ & Hcards).
  injection Hg as <-.
  apply (Hcards [empty_id_card]). reflexivity.
Defined.

(** C9, as stated, fails: a draft that satisfies the schema with an empty
    [id] is published, and its card is keyed by the empty string. *)
Lemma post_with_empty_id :
  matches_schema (JArr [empty_id_draft]) = true /\
  is_ok (fst (fetch_try (mounted backend_empty_id))) = true /\
  arr_items (posts (view (loaded backend_empty_id))) = [empty_id_post] /\
  get_prop empty_id_post "id" = Ok (JStr EmptyString) /\
  (exists cards,
      render (view (loaded backend_empty_id)) = Ok (ListView cards) /\
      map card_key cards = [JStr EmptyString]) /\
  ~ (forall post,
        In post (arr_items (posts (view (loaded backend_empty_id)))) ->
        exists id, id <> EmptyString /\ get_prop post "id" = Ok (JStr id)).
Proof.
  repeat (split; [reflexivity|]).
  split; [eexists; split; reflexivity|].
  intros Hall.
  destruct (Hall empty_id_post (or_introl eq_refl)) as (id & Hid & Hget).
  apply Hid. injection Hget as <-. reflexivity.
Qed.

(** ** More runs on the concrete host *)

Lemma response_with_parts_path parts :
  parts_of (response_with_parts parts) (JArr parts).
Proof. do 3 eexists. repeat split. Defined.

Lemma response_with_parts_first before part after inlineData :
  Forall plain_part before ->
  get_prop part "inlineData" = Ok inlineData ->
  truthy inlineData = true ->
  first_inline_part (response_with_parts (before ++ part :: after)) part.
Proof.
  intros Hb Hg Ht.
  do 3 eexists. exists before, after, inlineData.
  repeat (split; [reflexivity|]).
  split; [exact Hb|]. split; [exact Hg | exact Ht].
Defined.

Lemma text_part_plain : plain_part text_part.
Proof. eexists. split; reflexivity. Defined.

Lemma declared_mimeType_is_kept_witness :
  fst (generateImage (JStr "robots writing code")
         (mounted (backend_parts [text_part; png_part])))
  = Ok "data:image/png;base64,QUJD".
Proof.
  apply (declared_mimeType_is_kept
           (JStr "robots writing code")
           (mounted (backend_parts [text_part; png_part]))
           "robots writing code"
           (response_with_parts [text_part; png_part]) png_part
           (JObj [("mimeType", JStr "image/png"); ("data", JStr "QUJD")])
           (JStr "image/png") (JStr "QUJD") "image/png" "QUJD");
    try reflexivity.
  apply (response_with_parts_first [text_part] png_part []
           (JObj [("mimeType", JStr "image/png"); ("data", JStr "QUJD")]));
    [constructor; [apply text_part_plain | constructor]
    | reflexivity | reflexivity].
Defined.

Lemma falsy_mimeType_defaults_to_jpeg_witness :
  fst (generateImage (JStr "robots writing code")
         (mounted (backend_parts [blank_mime_part])))
  = Ok "data:image/jpeg;base64,QUJD".
Proof.
  apply (falsy_mimeType_defaults_to_jpeg
           (JStr "robots writing code")
           (mounted (backend_parts [blank_mime_part]))
           "robots writing code"
           (response_with_parts [blank_mime_part]) blank_mime_part
           (JObj [("mimeType", JStr EmptyString); ("data", JStr "QUJD")])
           (JStr EmptyString) (JStr "QUJD") "QUJD");
    try reflexivity.
  apply (response_with_parts_first [] blank_mime_part []
           (JObj [("mimeType", JStr EmptyString); ("data", JStr "QUJD")]));
    [constructor | reflexivity | reflexivity].
Defined.

Lemma missing_payload_yields_undefined_witness :
  fst (generateImage (JStr "robots writing code")
         (mounted (backend_parts [no_data_part])))
  = Ok "data:image/png;base64,undefined" /\
  fst (generateImage (JStr "robots writing code")
         (mounted (backend_parts [no_data_part])))
  <> Ok genericFallbackUrl.
Proof.
  apply (missing_payload_yields_undefined
           (JStr "robots writing code")
           (mounted (backend_parts [no_data_part]))
           "robots writing code"
           (response_with_parts [no_data_part]) no_data_part
           (JObj [("mimeType", JStr "image/png")])
           (JStr "image/png") "image/png");
    try reflexivity.
  apply (response_with_parts_first [] no_data_part []
           (JObj [("mimeType", JStr "image/png")]));
    [constructor | reflexivity | reflexivity].
Defined.

(** The image is there, after a [null] part: the placeholder comes back. *)
Lemma null_part_hides_image_witness :
  fst (generateImage (JStr "robots writing code")
         (mounted (backend_parts [text_part; JNull; png_part])))
  = Ok genericFallbackUrl /\
  console (snd (generateImage (JStr "robots writing code")
                  (mounted (backend_parts [text_part; JNull; png_part]))))
  = ["Gemini Native Image Generation Error:"].
Proof.
  apply (null_part_hides_image
           (JStr "robots writing code")
           (mounted (backend_parts [text_part; JNull; png_part]))
           "robots writing code"
           (response_with_parts [text_part; JNull; png_part])
           JNull [text_part] [png_part]);
    try reflexivity.
  - apply (response_with_parts_path [text_part; JNull; png_part]).
  - constructor; [apply text_part_plain | constructor].
Defined.

(** A response with a text part only: the placeholder, and a silent
    console. *)
Lemma generateImage_logs_only_throws_witness :
  fst (generateImage (JStr "robots writing code")
         (mounted (backend_parts [text_part])))
  = Ok genericFallbackUrl /\
  console (snd (generateImage (JStr "robots writing code")
                  (mounted (backend_parts [text_part]))))
  = [].
Proof.
  destruct (generateImage_logs_only_throws
              (JStr "robots writing code")
              (mounted (backend_parts [text_part]))
              "robots writing code" eq_refl)
    as (_ & _ & _ & Hsilent).
  apply (Hsilent (response_with_parts [text_part]) [text_part]);
    [reflexivity
    | apply response_with_parts_path
    | constructor; [apply text_part_plain | constructor]].
Defined.

Lemma generateBlogContent_traffic_witness :
  calls (snd (generateBlogContent (mounted backend_offline)))
    = [content_request] /\
  console (snd (generateBlogContent (mounted backend_offline)))
    = ["Gemini API Content Error:"].
Proof.
  destruct (generateBlogContent_traffic (mounted backend_offline))
    as (Hcalls & Hthrow & _).
  split; [exact Hcalls|].
  apply (Hthrow "offline"). reflexivity.
Defined.

Lemma draft_without_imagePrompt_witness :
  map req_text (calls (snd (with_image bare_draft (mounted backend_offline))))
  = ["Generate a photorealistic, abstract, 16:9 aspect ratio image for a tech blog related to: undefined"].
Proof.
  destruct (draft_without_imagePrompt bare_draft (mounted backend_offline)
              eq_refl eq_refl) as (Hcalls & _).
  rewrite Hcalls. reflexivity.
Defined.

Lemma pipeline_requests_witness :
  calls (loaded backend_empty_id)
    = [content_request; image_request "robots writing code"] /\
  calls (snd (handleReadMore empty_id_post (loaded backend_empty_id)))
    = calls (loaded backend_empty_id).
Proof.
  destruct (pipeline_requests backend_empty_id)
    as (_ & Htopics & _ & Hafter).
  split.
  - apply (Htopics [empty_id_draft] ["robots writing code"]);
      [reflexivity | constructor; [reflexivity | constructor]].
  - apply Hafter; [|reflexivity].
    eapply reach_step; [apply loaded_reachable|].
    apply (step_click (loaded backend_empty_id)
             (ListView [empty_id_card]) (ReadMore empty_id_post));
      [reflexivity | left; reflexivity].
Defined.

Lemma posts_carry_their_own_image_witness :
  nth_error (arr_items (posts (view (loaded backend_empty_id)))) 0
    = Some empty_id_post /\
  nth_error (calls (loaded backend_empty_id)) 1
    = Some (image_request "robots writing code") /\
  backend_empty_id 1 (image_request "robots writing code")
    = Returned untyped_image_response.
Proof.
  destruct (posts_carry_their_own_image backend_empty_id
              [empty_id_draft] 0 empty_id_draft eq_refl eq_refl eq_refl)
    as (ip & G & Hpost & Hcall).
  injection G as <-.
  split; [exact Hpost|].
  split; [apply Hcall; reflexivity | reflexivity].
Defined.

Lemma errored_iff_not_an_array_of_values_witness :
  ~ (exists drafts,
        fst (generateBlogContent (mounted backend_braces)) = Ok (JArr drafts) /\
        Forall (fun d => nullish d = false) drafts).
Proof.
  apply (proj1 (errored_iff_not_an_array_of_values backend_braces)).
  reflexivity.
Defined.

Lemma errored_means_backend_answered_witness :
  exists response parsed,
    backend_braces 0 content_request = Returned response /\
    rbind (get_prop response "text") json_parse = Ok parsed /\
    fst (generateBlogContent (mounted backend_braces)) = Ok parsed /\
    parsed <> JArr [].
Proof.
  apply (errored_means_backend_answered backend_braces). reflexivity.
Defined.

(** With every image call failing, the same post comes out, its image
    apart. *)
Lemma load_independent_of_images_witness :
  error (view (loaded backend_empty_id))
    = error (view (loaded backend_empty_id_offline)) /\
  length (arr_items (posts (view (loaded backend_empty_id))))
    = length (arr_items (posts (view (loaded backend_empty_id_offline)))) /\
  get_prop empty_id_post "title"
    = get_prop (spread_with empty_id_draft "imageUrl"
                  (JStr genericFallbackUrl)) "title".
Proof.
  destruct (load_independent_of_images backend_empty_id
              backend_empty_id_offline eq_refl) as (He & Hlen & Hprops).
  split; [exact He|]. split; [exact Hlen|].
  apply (Hprops 0); [reflexivity | reflexivity | discriminate].
Defined.

Lemma publication_is_all_or_nothing_witness :
  posts (view (settled backend_empty_id))
    = {| arr_ref := 0; arr_items := [] |} \/
  (exists drafts,
      fst (generateBlogContent (mounted backend_empty_id))
        = Ok (JArr drafts) /\
      posts (view (settled backend_empty_id))
        = posts (view (loaded backend_empty_id)) /\
      arr_ref (posts (view (settled backend_empty_id))) = 1 /\
      length (arr_items (posts (view (settled backend_empty_id))))
        = length drafts /\
      Forall2 post_of drafts
        (arr_items (posts (view (settled backend_empty_id))))).
Proof.
  apply (publication_is_all_or_nothing backend_empty_id
           (settled backend_empty_id)).
  eapply reach_step; [apply reach_mounted | apply step_settle].
Defined.

Lemma cards_show_posts_witness :
  render (view (loaded backend_empty_id)) = Ok (ListView [empty_id_card]) /\
  map card_post [empty_id_card]
    = arr_items (posts (view (loaded backend_empty_id))).
Proof.
  split; [reflexivity|].
  apply (cards_show_posts backend_empty_id (loaded backend_empty_id)
           [empty_id_card] (loaded_reachable backend_empty_id) eq_refl).
Defined.

Lemma card_opens_its_own_post_witness :
  step (loaded backend_empty_id)
       (snd (handleReadMore empty_id_post (loaded backend_empty_id))) /\
  scrolls (snd (handleReadMore empty_id_post (loaded backend_empty_id))) = 1 /\
  exists content,
    get_prop empty_id_post "content" = Ok content /\
    render (view (snd (handleReadMore empty_id_post
                         (loaded backend_empty_id))))
      = Ok (DetailView (JStr "Agents at work") (JStr "2025-01-01")
              (Some (JStr "data:image/jpeg;base64,QUJD")) content).
Proof.
  apply (card_opens_its_own_post backend_empty_id (loaded backend_empty_id)
           [empty_id_card] empty_id_card
           (loaded_reachable backend_empty_id) eq_refl).
  left. reflexivity.
Defined.
